(** * Rule-based file sorter: a shallow embedding of
      [rule_based_sort/rule_based_sorter.py] and the properties of its
      condition evaluator, rule matcher, template resolver and planner.

    Modelling conventions.
    - Python values that can reach the sorter (YAML configuration values and
      keyword metadata) are the type [pyval]: [None], booleans, integers,
      strings, lists and string-keyed dictionaries.  Floats, dates and
      dictionaries with non-string keys are outside the model.
    - A dictionary is an association list in insertion order, as Python
      dictionaries iterate.
    - Text is [string]; the character classes and the case mapping are
      those of 7-bit ASCII (for code points above 127 Python consults the
      Unicode tables, which are not modelled: such characters are treated
      as uncased, non-blank, non-word characters).
    - A Python call either returns or raises: [res A].  The interpreter's
      recursion limit is not modelled.
    - Library calls that are not part of the repository (the [re] engine
      on user patterns, [pathlib]'s stem and suffix, [os.path],
      [pathvalidate]'s sanitizers) are fields of the class [Platform]. *)

From Stdlib Require Import ZArith List String Ascii Bool Arith Lia.
From Stdlib Require Import Permutation DecimalString.
Import ListNotations.
Open Scope string_scope.
Open Scope list_scope.
Open Scope nat_scope.

Local Infix "+++" := String.append (right associativity, at level 60).
Local Notation "s1 =s? s2" := (String.eqb s1 s2) (at level 70).

(** ** Text: the [str] methods the sorter calls *)

Definition char_code (c : ascii) : nat := nat_of_ascii c.

(** [str.isspace] on one character (ASCII part of the table). *)
Definition is_space (c : ascii) : bool :=
  let n := char_code c in
  ((9 <=? n) && (n <=? 13)) || ((28 <=? n) && (n <=? 32)).

(** The class [\w] of [re] (ASCII part): letters, digits and underscore. *)
Definition is_word (c : ascii) : bool :=
  let n := char_code c in
  ((48 <=? n) && (n <=? 57)) || ((65 <=? n) && (n <=? 90))
  || (n =? 95) || ((97 <=? n) && (n <=? 122)).

Definition upper_char (c : ascii) : ascii :=
  let n := char_code c in
  if (97 <=? n) && (n <=? 122) then ascii_of_nat (n - 32) else c.

(** [s.upper()] *)
Fixpoint py_upper (s : string) : string :=
  match s with
  | EmptyString => EmptyString
  | String c r => String (upper_char c) (py_upper r)
  end.

Definition str_is_empty (s : string) : bool :=
  match s with EmptyString => true | _ => false end.

Fixpoint str_lstrip (s : string) : string :=
  match s with
  | EmptyString => EmptyString
  | String c r => if is_space c then str_lstrip r else s
  end.

Fixpoint str_rstrip (s : string) : string :=
  match s with
  | EmptyString => EmptyString
  | String c r =>
      let r' := str_rstrip r in
      if str_is_empty r' && is_space c then EmptyString else String c r'
  end.

(** [s.strip()] *)
Definition str_strip (s : string) : string := str_rstrip (str_lstrip s).

(** [s.split(sep)] for a one-character separator: never the empty list. *)
Fixpoint str_split (sep : ascii) (s : string) : list string :=
  match s with
  | EmptyString => [EmptyString]
  | String c r =>
      match str_split sep r with
      | h :: t => if Ascii.eqb c sep then EmptyString :: h :: t
                  else String c h :: t
      | [] => [String c EmptyString]
      end
  end.

(** [s.startswith(p)] *)
Definition str_startswith (s p : string) : bool := String.prefix p s.

(** [s.endswith(p)] *)
Fixpoint str_endswith (s p : string) : bool :=
  (s =s? p) ||
  match s with
  | EmptyString => false
  | String _ r => str_endswith r p
  end.

(** [sub in s] for two strings. *)
Fixpoint str_contains (s sub : string) : bool :=
  String.prefix sub s ||
  match s with
  | EmptyString => false
  | String _ r => str_contains r sub
  end.

(** [s[1:-1]] *)
Definition str_strip_ends (s : string) : string :=
  String.substring 1 (String.length s - 2) s.

Fixpoint str_drop (n : nat) (s : string) : string :=
  match n, s with
  | O, _ => s
  | S k, String _ r => str_drop k r
  | S _, EmptyString => EmptyString
  end.

(** [sep.join(parts)] *)
Definition str_join (sep : string) (parts : list string) : string :=
  String.concat sep parts.

Fixpoint str_intersperse (new s : string) : string :=
  match s with
  | EmptyString => new
  | String c r => new +++ String c (str_intersperse new r)
  end.

(** The scan of [str.replace] for a non-empty [old]: left to right, and
    the characters of a replaced occurrence are skipped ([skip] counts
    the ones still to pass), so occurrences do not overlap. *)
Fixpoint str_replace_scan (old new : string) (skip : nat) (s : string)
  : string :=
  match s with
  | EmptyString => EmptyString
  | String c r =>
      match skip with
      | S k => str_replace_scan old new k r
      | O =>
          if String.prefix old s
          then new +++ str_replace_scan old new (String.length old - 1) r
          else String c (str_replace_scan old new 0 r)
      end
  end.

(** [s.replace(old, new)] *)
Definition str_replace (s old new : string) : string :=
  if str_is_empty old then str_intersperse new s
  else str_replace_scan old new 0 s.

(** ** The two regular expressions of [_replace_placeholders] *)

Fixpoint take_word (s : string) : string :=
  match s with
  | String c r => if is_word c then String c (take_word r) else EmptyString
  | EmptyString => EmptyString
  end.

Definition template_prefix : string := "$template.".

(** [re.findall(r'\$template\.(\w+)', s)]: the captured names, left to
    right.  A match is the literal prefix followed by the longest run of
    word characters, which must not be empty.  The text of a match holds
    no dollar sign after its first character, so the next match cannot
    start inside it and the scan may resume one character further. *)
Fixpoint findall_template_refs (s : string) : list string :=
  match s with
  | EmptyString => []
  | String _ r =>
      if String.prefix template_prefix s
      then match take_word (str_drop 10 s) with
           | EmptyString => findall_template_refs r
           | name => name :: findall_template_refs r
           end
      else findall_template_refs r
  end.

Definition open_brace : ascii := "{"%char.
Definition close_brace : ascii := "}"%char.

(** [re.sub(r'\{([^}]+)\}', repl, s)] with a callable [repl] applied to
    group 1.  [inside = Some acc] means an opening brace was read and
    [acc] is the text since; a match extends to the first closing brace
    and needs at least one character in between.  Replacements are not
    scanned again. *)
Fixpoint sub_placeholders (repl : string -> string) (inside : option string)
  (s : string) : string :=
  match s with
  | EmptyString =>
      match inside with
      | None => EmptyString
      | Some acc => String open_brace acc
      end
  | String c r =>
      match inside with
      | None =>
          if Ascii.eqb c open_brace then sub_placeholders repl (Some EmptyString) r
          else String c (sub_placeholders repl None r)
      | Some acc =>
          if Ascii.eqb c close_brace then
            if str_is_empty acc
            then String open_brace (String close_brace (sub_placeholders repl None r))
            else repl acc +++ sub_placeholders repl None r
          else sub_placeholders repl (Some (acc +++ String c EmptyString)) r
      end
  end.

(** ** Python values *)

Unset Elimination Schemes.
Inductive pyval : Type :=
| PNone
| PBool (b : bool)
| PInt (z : Z)
| PStr (s : string)
| PList (l : list pyval)
| PDict (d : list (string * pyval)).
Set Elimination Schemes.

Definition dict : Type := list (string * pyval).

Inductive exn : Type :=
| TypeError
| AttributeError
| KeyError
| RecursionError
| OverflowError
| ValueError (msg : string)
| FileNotFoundError (msg : string).

Inductive res (A : Type) : Type :=
| Ok (a : A)
| Raise (e : exn).
Arguments Ok {A} a.
Arguments Raise {A} e.

Definition bind {A B : Type} (m : res A) (k : A -> res B) : res B :=
  match m with
  | Ok a => k a
  | Raise e => Raise e
  end.

Notation "x <- m ;; k" := (bind m (fun x => k))
  (at level 61, m at next level, right associativity).

(** [d.get(k)] as an option, [k in d], [d[k] = v] and [d.update(other)]. *)
Fixpoint dict_get {V : Type} (d : list (string * V)) (k : string) : option V :=
  match d with
  | [] => None
  | (k', v) :: d' => if k' =s? k then Some v else dict_get d' k
  end.

Definition dict_has {V : Type} (d : list (string * V)) (k : string) : bool :=
  match dict_get d k with Some _ => true | None => false end.

Fixpoint dict_set {V : Type} (d : list (string * V)) (k : string) (v : V)
  : list (string * V) :=
  match d with
  | [] => [(k, v)]
  | (k', v') :: d' =>
      if k' =s? k then (k', v) :: d' else (k', v') :: dict_set d' k v
  end.

Definition dict_update {V : Type} (d other : list (string * V))
  : list (string * V) :=
  fold_left (fun acc kv => dict_set acc (fst kv) (snd kv)) other d.

(** [a == b] *)
Fixpoint py_eq (a b : pyval) {struct a} : bool :=
  match a, b with
  | PNone, PNone => true
  | PBool x, PBool y => Bool.eqb x y
  | PBool x, PInt y => Z.eqb (Z.b2z x) y
  | PInt x, PBool y => Z.eqb x (Z.b2z y)
  | PInt x, PInt y => Z.eqb x y
  | PStr x, PStr y => x =s? y
  | PList l1, PList l2 =>
      (fix eq_items (l1 l2 : list pyval) : bool :=
         match l1, l2 with
         | [], [] => true
         | x :: l1', y :: l2' => py_eq x y && eq_items l1' l2'
         | _, _ => false
         end) l1 l2
  | PDict d1, PDict d2 =>
      Nat.eqb (List.length d1) (List.length d2) &&
      (fix eq_entries (d : list (string * pyval)) : bool :=
         match d with
         | [] => true
         | (k, v) :: d' =>
             match dict_get d2 k with
             | Some v' => py_eq v v'
             | None => false
             end && eq_entries d'
         end) d1
  | _, _ => false
  end.

Definition squote : ascii := "'"%char.
Definition dquote : ascii := "034"%char.
Definition backslash : ascii := "\"%char.

Fixpoint str_has_char (c : ascii) (s : string) : bool :=
  match s with
  | EmptyString => false
  | String c' r => Ascii.eqb c' c || str_has_char c r
  end.

Definition hex_digit (n : nat) : ascii :=
  if n <? 10 then ascii_of_nat (48 + n) else ascii_of_nat (87 + n).

Definition repr_char (quote c : ascii) : string :=
  let n := char_code c in
  if Ascii.eqb c quote || Ascii.eqb c backslash then String backslash (String c EmptyString)
  else if n =? 9 then "\t"
  else if n =? 10 then "\n"
  else if n =? 13 then "\r"
  else if (n <? 32) || (n =? 127)
  then String backslash (String "x"%char
         (String (hex_digit (n / 16)) (String (hex_digit (n mod 16)) EmptyString)))
  else String c EmptyString.

Fixpoint repr_chars (quote : ascii) (s : string) : string :=
  match s with
  | EmptyString => EmptyString
  | String c r => repr_char quote c +++ repr_chars quote r
  end.

(** [repr(s)] of a string: single quotes, unless the text has a single
    quote and no double quote. *)
Definition repr_str (s : string) : string :=
  let quote :=
    if str_has_char squote s && negb (str_has_char dquote s)
    then dquote else squote in
  String quote (repr_chars quote s +++ String quote EmptyString).

Definition str_of_Z (z : Z) : string := NilZero.string_of_int (Z.to_int z).

(** [repr(v)] *)
Fixpoint py_repr (v : pyval) : string :=
  match v with
  | PNone => "None"
  | PBool true => "True"
  | PBool false => "False"
  | PInt z => str_of_Z z
  | PStr s => repr_str s
  | PList l => "[" +++ str_join ", " (map py_repr l) +++ "]"
  | PDict d =>
      "{" +++ str_join ", "
                (map (fun kv => repr_str (fst kv) +++ ": " +++ py_repr (snd kv)) d)
          +++ "}"
  end.

(** [str(v)] *)
Definition py_str (v : pyval) : string :=
  match v with
  | PStr s => s
  | _ => py_repr v
  end.

(** [bool(v)] *)
Definition py_truthy (v : pyval) : bool :=
  match v with
  | PNone => false
  | PBool b => b
  | PInt z => negb (Z.eqb z 0)
  | PStr s => negb (str_is_empty s)
  | PList l => match l with [] => false | _ => true end
  | PDict d => match d with [] => false | _ => true end
  end.

Fixpoint str_chars (s : string) : list pyval :=
  match s with
  | EmptyString => []
  | String c r => PStr (String c EmptyString) :: str_chars r
  end.

(** The items a [for] loop visits. *)
Definition py_iter (v : pyval) : res (list pyval) :=
  match v with
  | PList l => Ok l
  | PStr s => Ok (str_chars s)
  | PDict d => Ok (map (fun kv => PStr (fst kv)) d)
  | _ => Raise TypeError
  end.

(** [x in container] *)
Definition py_in (x container : pyval) : res bool :=
  match container with
  | PDict d =>
      match x with
      | PStr k => Ok (dict_has d k)
      | PList _ | PDict _ => Raise TypeError
      | _ => Ok false
      end
  | PStr s =>
      match x with
      | PStr sub => Ok (str_contains s sub)
      | _ => Raise TypeError
      end
  | PList l => Ok (existsb (fun e => py_eq e x) l)
  | _ => Raise TypeError
  end.

(** [obj.get(key, default)]: only dictionaries have the method. *)
Definition py_get (obj : pyval) (key : string) (default : pyval) : res pyval :=
  match obj with
  | PDict d => Ok (match dict_get d key with Some v => v | None => default end)
  | _ => Raise AttributeError
  end.

(** [obj[key]] for a string key. *)
Definition py_subscript (obj : pyval) (key : string) : res pyval :=
  match obj with
  | PDict d =>
      match dict_get d key with
      | Some v => Ok v
      | None => Raise KeyError
      end
  | PStr _ | PList _ => Raise TypeError
  | _ => Raise TypeError
  end.

(** [sep.join(items)]: every item must be a string. *)
Fixpoint py_join_items (items : list pyval) : res (list string) :=
  match items with
  | [] => Ok []
  | PStr s :: rest => tail <- py_join_items rest ;; Ok (s :: tail)
  | _ :: _ => Raise TypeError
  end.

Definition py_join (sep : string) (items : list pyval) : res string :=
  parts <- py_join_items items ;; Ok (str_join sep parts).

(** [len(set(items))] *)
Fixpoint py_set_size (items : list pyval) : nat :=
  match items with
  | [] => 0
  | x :: rest =>
      if existsb (py_eq x) rest then py_set_size rest
      else S (py_set_size rest)
  end.

Fixpoint py_depth (v : pyval) : nat :=
  match v with
  | PList l => S (list_max (map py_depth l))
  | PDict d => S (list_max (map (fun kv => py_depth (snd kv)) d))
  | _ => 0
  end.

(** ** What the sorter takes from its environment *)

(** What compiling a pattern does: it gives a matcher, whose [search]
    says whether the pattern occurs somewhere in a text, or raises
    [re.error], or raises something else (CPython raises [OverflowError]
    on a repetition count that is too large). *)
Inductive compiled : Type :=
| Compiled (search : string -> bool)
| PatternError
| CompileRaises (e : exn).

Class Platform : Type := {
  (** The [re] engine on a pattern given as text. *)
  re_compile : string -> compiled;
  (** [Path(name).stem] and [Path(name).suffix] *)
  path_stem : string -> string;
  path_suffix : string -> string;
  (** [os.path.exists], [os.path.basename], [os.path.join] *)
  os_path_exists : string -> bool;
  os_path_basename : string -> string;
  os_path_join : string -> string -> string;
  (** [pathvalidate]'s sanitizers, called with [replacement_text="_"] *)
  sanitize_filepath : string -> string;
  sanitize_filename : string -> string
}.

(** The state of a [FileSorter] after [__init__]: the loaded
    configuration, its [templates] entry and the absolute output
    directory. *)
Record FileSorter : Type := {
  config : dict;
  templates : pyval;
  base_output_dir : string
}.

(** ** [_convert_when_to_conditions] *)

Definition equals_leaf (field : string) (value : pyval) : pyval :=
  PDict [("field", PStr field); ("operator", PStr "equals"); ("value", value)].

(** The [for field, value in when.items()] loop. *)
Fixpoint when_leaves (when : dict) : list pyval :=
  match when with
  | [] => []
  | (field, value) :: rest =>
      match value with
      | PList vs => map (equals_leaf field) vs
      | _ => [equals_leaf field value]
      end ++ when_leaves rest
  end.

(** [r["field"]] of a generated leaf. *)
Definition leaf_field (r : pyval) : pyval :=
  match r with
  | PDict d => match dict_get d "field" with Some f => f | None => PNone end
  | _ => PNone
  end.

Definition group (logic : string) (rules : list pyval) : pyval :=
  PDict [("logic", PStr logic); ("rules", PList rules)].

Definition _convert_when_to_conditions (when : dict) : pyval :=
  let rules := when_leaves when in
  if List.length rules =? 1 then group "AND" rules
  else
    let fields := map leaf_field rules in
    if py_set_size fields =? 1 then group "OR" rules
    else group "AND" rules.

Section Sorter.
Context {platform : Platform}.

(** ** [_evaluate_condition] and [_evaluate_conditions] *)

(** [field not in metadata] followed by [metadata[field]]: the value of
    the field, or [None] when the lookup says it is absent.  A list or a
    dictionary is not hashable and cannot be looked up. *)
Definition lookup_field (metadata : dict) (field : pyval) : res (option pyval) :=
  match field with
  | PStr k => Ok (dict_get metadata k)
  | PList _ | PDict _ => Raise TypeError
  | _ => Ok None
  end.

(** The [if operator == ...] chain on a present field. *)
Definition apply_operator (operator value file_value : pyval) : res bool :=
  if py_eq operator (PStr "equals") then Ok (py_eq file_value value)
  else if py_eq operator (PStr "not_equals") then Ok (negb (py_eq file_value value))
  else if py_eq operator (PStr "contains") then
    py_in value (PStr (py_str file_value))
  else if py_eq operator (PStr "starts_with") then
    match value with
    | PStr p => Ok (str_startswith (py_str file_value) p)
    | _ => Raise TypeError
    end
  else if py_eq operator (PStr "ends_with") then
    match value with
    | PStr p => Ok (str_endswith (py_str file_value) p)
    | _ => Raise TypeError
    end
  else if py_eq operator (PStr "regex") then
    match value with
    | PStr p =>
        match re_compile p with
        | Compiled search => Ok (search (py_str file_value))
        | PatternError => Ok false
        | CompileRaises e => Raise e
        end
    | _ => Raise TypeError
    end
  else Ok false.

(** The part of [_evaluate_condition] after the [logic] test. *)
Definition evaluate_leaf (condition : pyval) (metadata : dict) : res bool :=
  field <- py_get condition "field" PNone ;;
  operator <- py_get condition "operator" PNone ;;
  value <- py_get condition "value" PNone ;;
  found <- lookup_field metadata field ;;
  match found with
  | None => Ok false
  | Some file_value => apply_operator operator value file_value
  end.

(** A computation that may also run out of recursion budget ([None]). *)
Definition fueled (A : Type) : Type := option (res A).

(** [all(f(x) for x in items)] and [any(f(x) for x in items)]: the
    generator is consumed up to the first deciding item, and an exception
    raised on the way ends the loop. *)
Fixpoint all_fueled (f : pyval -> fueled bool) (items : list pyval) : fueled bool :=
  match items with
  | [] => Some (Ok true)
  | x :: rest =>
      match f x with
      | Some (Ok true) => all_fueled f rest
      | other => other
      end
  end.

Fixpoint any_fueled (f : pyval -> fueled bool) (items : list pyval) : fueled bool :=
  match items with
  | [] => Some (Ok false)
  | x :: rest =>
      match f x with
      | Some (Ok false) => any_fueled f rest
      | other => other
      end
  end.

(** [conditions.get("logic", "AND").upper()] *)
Definition logic_of (conditions : pyval) : res string :=
  logic <- py_get conditions "logic" (PStr "AND") ;;
  match logic with
  | PStr s => Ok (py_upper s)
  | _ => Raise AttributeError
  end.

(** The two methods call each other; [fuel] bounds the depth of the
    calls. *)
Fixpoint evaluate_condition_fuel (fuel : nat) (condition : pyval)
  (metadata : dict) {struct fuel} : fueled bool :=
  match fuel with
  | O => None
  | S fuel' =>
      match py_in (PStr "logic") condition with
      | Raise e => Some (Raise e)
      | Ok true => evaluate_conditions_fuel fuel' condition metadata
      | Ok false => Some (evaluate_leaf condition metadata)
      end
  end
with evaluate_conditions_fuel (fuel : nat) (conditions : pyval)
  (metadata : dict) {struct fuel} : fueled bool :=
  match fuel with
  | O => None
  | S fuel' =>
      match logic_of conditions with
      | Raise e => Some (Raise e)
      | Ok logic =>
          match py_get conditions "rules" (PList []) with
          | Raise e => Some (Raise e)
          | Ok rules =>
              if negb (py_truthy rules) then Some (Ok true)
              else if logic =s? "AND" then
                match py_iter rules with
                | Raise e => Some (Raise e)
                | Ok items =>
                    all_fueled (fun rule => evaluate_condition_fuel fuel' rule metadata) items
                end
              else if logic =s? "OR" then
                match py_iter rules with
                | Raise e => Some (Raise e)
                | Ok items =>
                    any_fueled (fun rule => evaluate_condition_fuel fuel' rule metadata) items
                end
              else Some (Ok false)
          end
      end
  end.

Definition run {A : Type} (m : fueled A) : res A :=
  match m with
  | Some r => r
  | None => Raise RecursionError
  end.

Definition fuel_for (v : pyval) : nat := 2 * py_depth v + 3.

(** The methods themselves: the budget is taken from the nesting depth
    of the condition, which is always enough
    ([evaluate_condition_fuel_enough], [evaluate_conditions_fuel_enough]). *)
Definition _evaluate_condition (condition : pyval) (metadata : dict) : res bool :=
  run (evaluate_condition_fuel (fuel_for condition) condition metadata).

Definition _evaluate_conditions (conditions : pyval) (metadata : dict) : res bool :=
  run (evaluate_conditions_fuel (fuel_for conditions) conditions metadata).

(** [all] and [any] over calls that need no budget. *)
Fixpoint all_res (f : pyval -> res bool) (items : list pyval) : res bool :=
  match items with
  | [] => Ok true
  | x :: rest => b <- f x ;; if b then all_res f rest else Ok false
  end.

Fixpoint any_res (f : pyval -> res bool) (items : list pyval) : res bool :=
  match items with
  | [] => Ok false
  | x :: rest => b <- f x ;; if b then Ok true else any_res f rest
  end.

(** ** [_replace_placeholders] *)

Definition is_quoted (option : string) : bool :=
  (str_startswith option (String squote EmptyString)
   && str_endswith option (String squote EmptyString))
  || (str_startswith option (String dquote EmptyString)
      && str_endswith option (String dquote EmptyString)).

(** The [for option in options] loop of [replace_with_fallback]. *)
Fixpoint first_resolving (metadata : dict) (options : list string) : string :=
  match options with
  | [] => EmptyString
  | option :: rest =>
      if is_quoted option then str_strip_ends option
      else if dict_has metadata option && negb (option =s? "filename") then
        match dict_get metadata option with
        | Some value =>
            match value with
            | PNone => first_resolving metadata rest
            | _ =>
                if negb (str_is_empty (str_strip (py_str value)))
                then py_str value
                else first_resolving metadata rest
            end
        | None => first_resolving metadata rest
        end
      else first_resolving metadata rest
  end.

Definition pipe : ascii := "|"%char.

Definition replace_with_fallback (metadata : dict) (original_filename : string)
  (placeholder_content : string) : string :=
  if placeholder_content =s? "original" then path_stem original_filename
  else if placeholder_content =s? "ext" then path_suffix original_filename
  else
    let options := map str_strip (str_split pipe placeholder_content) in
    first_resolving metadata options.

(** The [for template_name in matches] loop. *)
Fixpoint expand_template_refs (table : pyval) (matches : list string)
  (result : string) : res string :=
  match matches with
  | [] => Ok result
  | template_name :: rest =>
      present <- py_in (PStr template_name) table ;;
      if present then
        template_value <- py_subscript table template_name ;;
        match template_value with
        | PStr body =>
            expand_template_refs table rest
              (str_replace result (template_prefix +++ template_name) body)
        | _ => Raise TypeError
        end
      else expand_template_refs table rest result
  end.

Definition _replace_placeholders (self : FileSorter) (template : string)
  (metadata : dict) (original_filename : string) : res string :=
  let matches := findall_template_refs template in
  result <- expand_template_refs (templates self) matches template ;;
  Ok (sub_placeholders (replace_with_fallback metadata original_filename) None result).

(** ** [_find_all_matching_rules] *)

(** The [for rule in ...] loop; [matching_rules] is returned in the order
    the rules are visited. *)
Fixpoint collect_matching (rules : list pyval) (metadata : dict)
  : res (list pyval) :=
  match rules with
  | [] => Ok []
  | rule :: rest =>
      conditions <- py_get rule "conditions" (PDict []) ;;
      matched <- _evaluate_conditions conditions metadata ;;
      matching_rules <- collect_matching rest metadata ;;
      Ok (if matched then rule :: matching_rules else matching_rules)
  end.

Definition config_rules (self : FileSorter) : pyval :=
  match dict_get (config self) "rules" with
  | Some v => v
  | None => PList []
  end.

Definition _find_all_matching_rules (self : FileSorter) (metadata : dict)
  : res (list pyval) :=
  rules <- py_iter (config_rules self) ;;
  collect_matching rules metadata.

(** ** [get_new_location] *)

(** [file_metadata = {"filename": original_filename}] followed by
    [file_metadata.update(metadata)]. *)
Definition file_metadata (original_filename : string) (metadata : dict) : dict :=
  dict_update [("filename", PStr original_filename)] metadata.

Definition no_match_message (original_filename : string) (metadata : dict)
  : string :=
  "No matching rule found for file '" +++ original_filename
  +++ "' with metadata: " +++ py_str (PDict metadata).

Definition ambiguous_message (original_filename : string)
  (rule_names : string) (metadata : dict) : string :=
  "Multiple rules matched for file '" +++ original_filename +++ "': "
  +++ rule_names +++ ". Each file must match exactly one rule. Metadata: "
  +++ py_str (PDict metadata).

(** [[rule.get("name", "Unnamed") for rule in matching_rules]] *)
Fixpoint rule_names_of (matching_rules : list pyval) : res (list pyval) :=
  match matching_rules with
  | [] => Ok []
  | rule :: rest =>
      name <- py_get rule "name" (PStr "Unnamed") ;;
      names <- rule_names_of rest ;;
      Ok (name :: names)
  end.

(** A template taken from the rule is handed to [re.findall], which
    rejects anything but text. *)
Definition as_template (v : pyval) : res string :=
  match v with
  | PStr s => Ok s
  | _ => Raise TypeError
  end.

(** The lines after [# Exactly one rule matched]. *)
Definition resolve_location (self : FileSorter) (rule : pyval)
  (metadata : dict) (original_filename : string)
  : res (string * string * pyval) :=
  rule_name <- py_get rule "name" (PStr "Unnamed") ;;
  path_template <- py_get rule "path" (PStr ".") ;;
  filename_template <- py_get rule "filename" (PStr "{original}") ;;
  path_text <- as_template path_template ;;
  relative_path <- _replace_placeholders self path_text metadata original_filename ;;
  filename_text <- as_template filename_template ;;
  new_filename <- _replace_placeholders self filename_text metadata original_filename ;;
  let absolute_path := os_path_join (base_output_dir self) relative_path in
  Ok (sanitize_filepath absolute_path, sanitize_filename new_filename, rule_name).

(** The lines from [# Find ALL matching rules] on; [file_md] is the
    prepared record and [metadata] the caller's keywords, which the
    messages print. *)
Definition plan_location (self : FileSorter) (original_filename : string)
  (file_md metadata : dict) : res (string * string * pyval) :=
  matching_rules <- _find_all_matching_rules self file_md ;;
  match matching_rules with
  | [] => Raise (ValueError (no_match_message original_filename metadata))
  | [rule] => resolve_location self rule file_md original_filename
  | _ :: _ :: _ =>
      rule_names <- rule_names_of matching_rules ;;
      joined <- py_join ", " rule_names ;;
      Raise (ValueError (ambiguous_message original_filename joined metadata))
  end.

Definition get_new_location (self : FileSorter) (original_filepath : string)
  (metadata : dict) : res (string * string * pyval) :=
  if negb (os_path_exists original_filepath) then
    Raise (FileNotFoundError ("File not found: " +++ original_filepath))
  else
    let original_filename := os_path_basename original_filepath in
    let file_md := file_metadata original_filename metadata in
    plan_location self original_filename file_md metadata.

End Sorter.

(** ** A concrete environment, to run the sorter on examples *)

Definition slash : ascii := "/"%char.
Definition dot : ascii := "."%char.

(** [posixpath.basename]: the text after the last slash. *)
Fixpoint posix_basename (p : string) : string :=
  match p with
  | EmptyString => EmptyString
  | String c r =>
      if str_has_char slash r then posix_basename r
      else if Ascii.eqb c slash then r else p
  end.

(** [posixpath.join] of two components. *)
Definition posix_join (a b : string) : string :=
  if str_startswith b (String slash EmptyString) then b
  else if str_is_empty a || str_endswith a (String slash EmptyString) then a +++ b
  else a +++ String slash b.

(** The text before the last dot and the text from it on. *)
Fixpoint split_last_dot (s : string) : option (string * string) :=
  match s with
  | EmptyString => None
  | String c r =>
      match split_last_dot r with
      | Some (a, b) => Some (String c a, b)
      | None => if Ascii.eqb c dot then Some (EmptyString, s) else None
      end
  end.

(** [PurePosixPath(name).stem] and [.suffix] for a plain file name: a
    leading dot or a trailing dot does not start a suffix. *)
Definition posix_stem (name : string) : string :=
  match split_last_dot name with
  | Some (a, b) =>
      if str_is_empty a || (String.length b =? 1) then name else a
  | None => name
  end.

Definition posix_suffix (name : string) : string :=
  match split_last_dot name with
  | Some (a, b) =>
      if str_is_empty a || (String.length b =? 1) then EmptyString else b
  | None => EmptyString
  end.

Fixpoint all_chars (p : ascii -> bool) (s : string) : bool :=
  match s with
  | EmptyString => true
  | String c r => p c && all_chars p r
  end.

(** An engine for the patterns made of word characters only, which match
    themselves; any other pattern is refused as [re.error]. *)
Definition literal_compile (pattern : string) : compiled :=
  if all_chars is_word pattern
  then Compiled (fun text => str_contains text pattern)
  else PatternError.

(** A sanitizer that replaces the characters no file name may hold. *)
Definition replace_illegal (c : ascii) : ascii :=
  if (char_code c <? 32) || str_has_char c ":*?<>|" || Ascii.eqb c dquote
  then "_"%char else c.

Fixpoint map_chars (f : ascii -> ascii) (s : string) : string :=
  match s with
  | EmptyString => EmptyString
  | String c r => String (f c) (map_chars f r)
  end.

(** The files of the sample file system. *)
Definition sample_files : list string :=
  ["/inbox/report.final.pdf"; "/inbox/scan.pdf"].

Definition sample_platform : Platform := {|
  re_compile := literal_compile;
  path_stem := posix_stem;
  path_suffix := posix_suffix;
  os_path_exists := fun p => existsb (String.eqb p) sample_files;
  os_path_basename := posix_basename;
  os_path_join := posix_join;
  sanitize_filepath := map_chars replace_illegal;
  sanitize_filename :=
    map_chars (fun c => if Ascii.eqb c slash then "_"%char else replace_illegal c)
|}.


(** ** Vocabulary of the statements *)

Definition is_str (v : pyval) : bool :=
  match v with PStr _ => true | _ => false end.

Definition hashable (v : pyval) : bool :=
  match v with PList _ | PDict _ => false | _ => true end.

(** [d.get(k)], with [None] for a missing key. *)
Definition entry (d : dict) (k : string) : pyval :=
  match dict_get d k with Some v => v | None => PNone end.

(** The operators that hand the rule's value to a [str] method or to
    [re.search]. *)
Definition is_text_operator (operator : pyval) : bool :=
  py_eq operator (PStr "contains") || py_eq operator (PStr "starts_with")
  || py_eq operator (PStr "ends_with") || py_eq operator (PStr "regex").

Definition is_known_operator (operator : pyval) : bool :=
  py_eq operator (PStr "equals") || py_eq operator (PStr "not_equals")
  || is_text_operator operator.

Section WellTyped.
Context {platform : Platform}.

(** The engine accepts the pattern or rejects it with [re.error]. *)
Definition pattern_settled (pattern : string) : bool :=
  match re_compile pattern with
  | CompileRaises _ => false
  | _ => true
  end.

(** A text operator comes with a text value, and [regex] with a pattern
    that the engine settles. *)
Definition value_fits (operator value : pyval) : bool :=
  if py_eq operator (PStr "regex") then
    match value with
    | PStr pattern => pattern_settled pattern
    | _ => false
    end
  else if is_text_operator operator then is_str value
  else true.

(** A leaf is well typed when its field can be looked up and its value
    fits its operator. *)
Definition leaf_well_typed (d : dict) : bool :=
  hashable (entry d "field")
  && value_fits (entry d "operator") (entry d "value").

Definition logic_is_text (d : dict) : bool :=
  match dict_get d "logic" with Some v => is_str v | None => true end.

Definition rules_entry (d : dict) : pyval :=
  match dict_get d "rules" with Some v => v | None => PList [] end.

(** Condition trees on which evaluation cannot raise: every group has a
    text [logic] (or none) and an empty or list-valued [rules] whose
    items are well typed; every leaf is well typed.
    [well_typed_condition] reads a dictionary as [_evaluate_condition]
    does (a group if it has the key [logic]), [well_typed_group] as
    [_evaluate_conditions] does (always a group). *)
Inductive well_typed_condition : pyval -> Prop :=
| wt_leaf (d : dict) :
    dict_has d "logic" = false ->
    leaf_well_typed d = true ->
    well_typed_condition (PDict d)
| wt_nested (d : dict) :
    dict_has d "logic" = true ->
    well_typed_group (PDict d) ->
    well_typed_condition (PDict d)
with well_typed_group : pyval -> Prop :=
| wt_no_rules (d : dict) :
    logic_is_text d = true ->
    py_truthy (rules_entry d) = false ->
    well_typed_group (PDict d)
| wt_rules (d : dict) (l : list pyval) :
    logic_is_text d = true ->
    dict_get d "rules" = Some (PList l) ->
    Forall well_typed_condition l ->
    well_typed_group (PDict d).

End WellTyped.

(** A template table as the configuration format describes it: a
    dictionary from names to text. *)
Definition table_well_typed (table : pyval) : bool :=
  match table with
  | PDict d => forallb (fun kv => is_str (snd kv)) d
  | _ => false
  end.

(** What one fallback option resolves to, in the words of the template
    language: a quoted literal gives its contents; a field other than
    [filename] gives the text of its value when that value is present,
    not [None] and not blank; anything else does not resolve. *)
Definition is_none (v : pyval) : bool :=
  match v with PNone => true | _ => false end.

Definition option_resolution (metadata : dict) (opt : string) : option string :=
  if is_quoted opt then Some (str_strip_ends opt)
  else if opt =s? "filename" then None
  else
    match dict_get metadata opt with
    | Some value =>
        if negb (is_none value) && negb (str_is_empty (str_strip (py_str value)))
        then Some (py_str value)
        else None
    | None => None
    end.

(** The resolution of the first option that resolves. *)
Fixpoint first_resolution (metadata : dict) (options : list string) : option string :=
  match options with
  | [] => None
  | opt :: rest =>
      match option_resolution metadata opt with
      | Some text => Some text
      | None => first_resolution metadata rest
      end
  end.

(** The sorter with another list of rules. *)
Definition with_rules (self : FileSorter) (rules : list pyval) : FileSorter :=
  {| config := dict_set (config self) "rules" (PList rules);
     templates := templates self;
     base_output_dir := base_output_dir self |}.

(** One rule's verdict on a metadata record. *)
Definition rule_matches {platform : Platform} (rule : pyval) (metadata : dict)
  : res bool :=
  conditions <- py_get rule "conditions" (PDict []) ;;
  _evaluate_conditions conditions metadata.

(** The shorthand's choice of connective, as the configuration format
    describes it for two or more leaves. *)
Definition same_field (leaves : list pyval) : Prop :=
  exists field, Forall (fun r => leaf_field r = PStr field) leaves.

Definition entry_leaves (kv : string * pyval) : list pyval :=
  match snd kv with
  | PList vs => map (equals_leaf (fst kv)) vs
  | v => [equals_leaf (fst kv) v]
  end.

(** A verdict that is [True]. *)
Definition holds (verdict : res bool) : bool :=
  match verdict with Ok true => true | _ => false end.

(** The rule carries this text as its name (or, lacking a name, the
    default one). *)
Definition named (rule : pyval) (name : string) : Prop :=
  py_get rule "name" (PStr "Unnamed") = Ok (PStr name).

(** ** Sample sorters and records *)

Definition leaf (field operator : string) (value : pyval) : pyval :=
  PDict [("field", PStr field); ("operator", PStr operator); ("value", value)].

Definition rule (name : string) (conditions : pyval) (path filename : string) : pyval :=
  PDict [("name", PStr name); ("conditions", conditions);
         ("path", PStr path); ("filename", PStr filename)].

Definition sorter_of (rules : pyval) (table : pyval) : FileSorter :=
  {| config := [("templates", table); ("rules", rules)];
     templates := table;
     base_output_dir := "/out" |}.


(** ** [_load_config] and [__init__], from the parsed configuration *)

(** [del d[k]] *)
Definition dict_del {V : Type} (d : list (string * V)) (k : string)
  : list (string * V) :=
  filter (fun kv => negb (fst kv =s? k)) d.

(** The body of the loop over the rules: a rule that has [when] and no
    [conditions] gets the compiled conditions and loses [when].  Only a
    dictionary can be indexed by a key, and only a dictionary has the
    [items] that the compiler asks of [when]. *)
Definition load_rule (rule : pyval) : res pyval :=
  has_when <- py_in (PStr "when") rule ;;
  if has_when then
    has_conditions <- py_in (PStr "conditions") rule ;;
    if negb has_conditions then
      when <- py_subscript rule "when" ;;
      match when, rule with
      | PDict w, PDict d =>
          Ok (PDict (dict_del
                       (dict_set d "conditions" (_convert_when_to_conditions w))
                       "when"))
      | PDict _, _ => Raise TypeError
      | _, _ => Raise AttributeError
      end
    else Ok rule
  else Ok rule.

Fixpoint load_rule_items (rules : list pyval) : res (list pyval) :=
  match rules with
  | [] => Ok []
  | rule :: rest =>
      loaded <- load_rule rule ;;
      others <- load_rule_items rest ;;
      Ok (loaded :: others)
  end.

(** [for rule in config["rules"]]: the rules of a list are updated in
    place; the items of a string or of a dictionary are texts, which the
    loop can only leave alone or fail on. *)
Definition load_rules (rules : pyval) : res pyval :=
  match rules with
  | PList l => items <- load_rule_items l ;; Ok (PList items)
  | _ => items <- py_iter rules ;; _ <- load_rule_items items ;; Ok rules
  end.

(** [_load_config] on the value that [yaml.safe_load] returned: the
    loaded configuration and the template table. *)
Definition _load_config (parsed : pyval) : res (dict * pyval) :=
  table <- py_get parsed "templates" (PDict []) ;;
  match parsed with
  | PDict d =>
      if dict_has d "rules" then
        rules <- py_subscript parsed "rules" ;;
        loaded <- load_rules rules ;;
        Ok (dict_set d "rules" loaded, table)
      else Ok (d, table)
  | _ => Raise AttributeError
  end.

(** [__init__], given the parsed configuration and the absolute form of
    the output directory. *)
Definition FileSorter_init (parsed : pyval) (absolute_output_dir : string)
  : res FileSorter :=
  loaded <- _load_config parsed ;;
  Ok {| config := fst loaded;
        templates := snd loaded;
        base_output_dir := absolute_output_dir |}.

(** ** More vocabulary *)

(** The equality tests a shorthand mapping stands for, in input order. *)
Definition when_tests (when : dict) : list (string * pyval) :=
  flat_map (fun kv => match snd kv with
                      | PList vs => map (pair (fst kv)) vs
                      | v => [(fst kv, v)]
                      end) when.

(** The leaf that the compiler generates for a test. *)
Definition test_leaf (test : string * pyval) : pyval :=
  equals_leaf (fst test) (snd test).

(** The record has the field and its value equals the given one. *)
Definition test_holds (metadata : dict) (test : string * pyval) : bool :=
  match dict_get metadata (fst test) with
  | Some file_value => py_eq file_value (snd test)
  | None => false
  end.

Definition one_field (tests : list (string * pyval)) : bool :=
  match tests with
  | [] => true
  | first :: rest => forallb (fun t => fst t =s? fst first) rest
  end.

(** What a shorthand mapping accepts: one of its tests when there are
    two or more and all are on one field, all of its tests otherwise. *)
Definition when_matches (when metadata : dict) : bool :=
  let tests := when_tests when in
  if (2 <=? List.length tests) && one_field tests
  then existsb (test_holds metadata) tests
  else forallb (test_holds metadata) tests.

(** Two records with the same fields and values. *)
Definition same_record (m m' : dict) : Prop :=
  forall k, dict_get m k = dict_get m' k.

(** A template as a sequence of plain text and tokens. *)
Inductive piece : Type :=
| Text (text : string)
| Token (content : string).

Definition render_piece (p : piece) : string :=
  match p with
  | Text text => text
  | Token content => String open_brace (content +++ String close_brace EmptyString)
  end.

Fixpoint render (pieces : list piece) : string :=
  match pieces with
  | [] => EmptyString
  | p :: rest => render_piece p +++ render rest
  end.

(** Plain text holds no opening brace; the content of a token is not
    empty and holds no closing brace. *)
Definition piece_ok (p : piece) : bool :=
  match p with
  | Text text => negb (str_has_char open_brace text)
  | Token content =>
      negb (str_is_empty content) && negb (str_has_char close_brace content)
  end.

Definition dollar : ascii := "$"%char.

Section Pieces.
Context {platform : Platform}.

Definition piece_value (metadata : dict) (original_filename : string) (p : piece)
  : string :=
  match p with
  | Text text => text
  | Token content => replace_with_fallback metadata original_filename content
  end.

Fixpoint pieces_value (metadata : dict) (original_filename : string)
  (pieces : list piece) : string :=
  match pieces with
  | [] => EmptyString
  | p :: rest =>
      piece_value metadata original_filename p
      +++ pieces_value metadata original_filename rest
  end.

End Pieces.
(** * Properties *)

(** ** The recursion budget never runs out *)

Lemma depth_dict_get (d : dict) (k : string) (v : pyval) :
  dict_get d k = Some v -> py_depth v < py_depth (PDict d).
Proof.
  cbn [py_depth]. induction d as [|[k' v'] d IH]; cbn [dict_get map list_max fold_right snd].
  - discriminate.
  - destruct (k' =s? k).
    + intros [= ->]. lia.
    + intros Hget. specialize (IH Hget). unfold list_max in IH. lia.
Qed.

Lemma depth_list_in (l : list pyval) (x : pyval) :
  In x l -> py_depth x < py_depth (PList l).
Proof.
  cbn [py_depth]. induction l as [|y l IH]; cbn [In map list_max fold_right].
  - contradiction.
  - intros [-> | Hin]; [lia | specialize (IH Hin); unfold list_max in IH; lia].
Qed.

Lemma str_chars_depth (s : string) (x : pyval) :
  In x (str_chars s) -> py_depth x = 0.
Proof.
  induction s as [|c s IH]; cbn [str_chars In]; [contradiction|].
  intros [<- | Hin]; [reflexivity | auto].
Qed.

(** Every condition visited by a group lies strictly deeper than the
    group. *)
Lemma visited_rule_depth (conditions rules x : pyval) (items : list pyval) :
  py_get conditions "rules" (PList []) = Ok rules ->
  py_iter rules = Ok items ->
  In x items ->
  py_depth x + 1 <= py_depth conditions.
Proof.
  destruct conditions as [| | | | |d]; cbn [py_get]; try discriminate.
  intros [= <-].
  destruct (dict_get d "rules") as [rules|] eqn:Hget.
  - pose proof (depth_dict_get _ _ _ Hget) as Hd.
    destruct rules as [| | |s|l|d']; cbn [py_iter]; try discriminate;
      intros [= <-] Hin.
    + rewrite (str_chars_depth _ _ Hin). cbn [py_depth] in *. lia.
    + pose proof (depth_list_in _ _ Hin). lia.
    + apply in_map_iff in Hin as [kv [<- _]]. cbn [py_depth] in *. lia.
  - cbn [py_iter]. intros [= <-] [].
Qed.

Section Budget.
Context {platform : Platform}.

Lemma evaluate_condition_fuel_S (n : nat) (c : pyval) (m : dict) :
  evaluate_condition_fuel (S n) c m =
  match py_in (PStr "logic") c with
  | Raise e => Some (Raise e)
  | Ok true => evaluate_conditions_fuel n c m
  | Ok false => Some (evaluate_leaf c m)
  end.
Proof. reflexivity. Qed.

Lemma evaluate_conditions_fuel_S (n : nat) (c : pyval) (m : dict) :
  evaluate_conditions_fuel (S n) c m =
  match logic_of c with
  | Raise e => Some (Raise e)
  | Ok logic =>
      match py_get c "rules" (PList []) with
      | Raise e => Some (Raise e)
      | Ok rules =>
          if negb (py_truthy rules) then Some (Ok true)
          else if logic =s? "AND" then
            match py_iter rules with
            | Raise e => Some (Raise e)
            | Ok items =>
                all_fueled (fun rule => evaluate_condition_fuel n rule m) items
            end
          else if logic =s? "OR" then
            match py_iter rules with
            | Raise e => Some (Raise e)
            | Ok items =>
                any_fueled (fun rule => evaluate_condition_fuel n rule m) items
            end
          else Some (Ok false)
      end
  end.
Proof. reflexivity. Qed.

Lemma all_fueled_ext (f g : pyval -> fueled bool) (items : list pyval) :
  (forall x, In x items -> f x = g x) ->
  all_fueled f items = all_fueled g items.
Proof.
  induction items as [|x items IH]; intros Hfg; cbn [all_fueled]; [reflexivity|].
  rewrite <- (Hfg x (or_introl eq_refl)).
  destruct (f x) as [[[|]|]|]; try reflexivity.
  apply IH. intros y Hy. apply Hfg. now right.
Qed.

Lemma any_fueled_ext (f g : pyval -> fueled bool) (items : list pyval) :
  (forall x, In x items -> f x = g x) ->
  any_fueled f items = any_fueled g items.
Proof.
  induction items as [|x items IH]; intros Hfg; cbn [any_fueled]; [reflexivity|].
  rewrite <- (Hfg x (or_introl eq_refl)).
  destruct (f x) as [[[|]|]|]; try reflexivity.
  apply IH. intros y Hy. apply Hfg. now right.
Qed.

Lemma all_fueled_some (f : pyval -> res bool) (items : list pyval) :
  all_fueled (fun x => Some (f x)) items = Some (all_res f items).
Proof.
  induction items as [|x items IH]; cbn [all_fueled all_res bind]; [reflexivity|].
  destruct (f x) as [[|]|]; auto.
Qed.

Lemma any_fueled_some (f : pyval -> res bool) (items : list pyval) :
  any_fueled (fun x => Some (f x)) items = Some (any_res f items).
Proof.
  induction items as [|x items IH]; cbn [any_fueled any_res bind]; [reflexivity|].
  destruct (f x) as [[|]|]; auto.
Qed.

(** With a budget above twice the nesting depth both methods finish, and
    the result does not depend on the budget. *)
Lemma fuel_enough (m : dict) (n : nat) :
  (forall c, 2 * py_depth c + 3 <= n ->
     exists r, forall k, n <= k -> evaluate_condition_fuel k c m = Some r) /\
  (forall c, 2 * py_depth c + 2 <= n ->
     exists r, forall k, n <= k -> evaluate_conditions_fuel k c m = Some r).
Proof.
  induction n as [|n [IHc IHg]].
  - split; intros c Hc; lia.
  - split; intros c Hc.
    + destruct (py_in (PStr "logic") c) as [[|]|e] eqn:Hin.
      * destruct (IHg c ltac:(lia)) as [r Hr]. exists r. intros k Hk.
        destruct k as [|k]; [lia|].
        rewrite evaluate_condition_fuel_S, Hin. apply Hr. lia.
      * exists (evaluate_leaf c m). intros k Hk. destruct k as [|k]; [lia|].
        now rewrite evaluate_condition_fuel_S, Hin.
      * exists (Raise e). intros k Hk. destruct k as [|k]; [lia|].
        now rewrite evaluate_condition_fuel_S, Hin.
    + assert (Hsub : forall rules items, py_get c "rules" (PList []) = Ok rules ->
                py_iter rules = Ok items ->
                exists f, forall k x, n <= k -> In x items ->
                  evaluate_condition_fuel k x m = Some (f x)).
      { intros rules items Hget Hiter.
        exists (fun x => run (evaluate_condition_fuel n x m)).
        intros k x Hk Hx.
        pose proof (visited_rule_depth _ _ _ _ Hget Hiter Hx) as Hd.
        destruct (IHc x ltac:(lia)) as [r Hr].
        rewrite (Hr k Hk), (Hr n (le_n _)). reflexivity. }
      destruct (logic_of c) as [logic|e] eqn:Hlogic.
      2:{ exists (Raise e). intros k Hk. destruct k as [|k]; [lia|].
          now rewrite evaluate_conditions_fuel_S, Hlogic. }
      destruct (py_get c "rules" (PList [])) as [rules|e] eqn:Hget.
      2:{ exists (Raise e). intros k Hk. destruct k as [|k]; [lia|].
          now rewrite evaluate_conditions_fuel_S, Hlogic, Hget. }
      destruct (py_iter rules) as [items|e] eqn:Hiter.
      * destruct (Hsub rules items eq_refl Hiter) as [f Hf].
        exists (if negb (py_truthy rules) then Ok true
                else if logic =s? "AND" then all_res f items
                else if logic =s? "OR" then any_res f items
                else Ok false).
        intros k Hk. destruct k as [|k]; [lia|].
        rewrite evaluate_conditions_fuel_S, Hlogic, Hget, Hiter.
        destruct (negb (py_truthy rules)); [reflexivity|].
        destruct (logic =s? "AND").
        { rewrite <- all_fueled_some. apply all_fueled_ext.
          intros x Hx. apply Hf; [lia | assumption]. }
        destruct (logic =s? "OR"); [|reflexivity].
        rewrite <- any_fueled_some. apply any_fueled_ext.
        intros x Hx. apply Hf; [lia | assumption].
      * exists (if negb (py_truthy rules) then Ok true
                else if logic =s? "AND" then Raise e
                else if logic =s? "OR" then Raise e
                else Ok false).
        intros k Hk. destruct k as [|k]; [lia|].
        rewrite evaluate_conditions_fuel_S, Hlogic, Hget, Hiter.
        destruct (negb (py_truthy rules)); [reflexivity|].
        destruct (logic =s? "AND"); [reflexivity|].
        destruct (logic =s? "OR"); reflexivity.
Qed.

Lemma evaluate_condition_fuel_enough (c : pyval) (m : dict) (k : nat) :
  fuel_for c <= k ->
  evaluate_condition_fuel k c m = Some (_evaluate_condition c m).
Proof.
  intros Hk. unfold _evaluate_condition.
  destruct (proj1 (fuel_enough m (fuel_for c)) c (le_n _)) as [r Hr].
  rewrite (Hr k Hk), (Hr _ (le_n _)). reflexivity.
Qed.

Lemma evaluate_conditions_fuel_enough (c : pyval) (m : dict) (k : nat) :
  fuel_for c <= k ->
  evaluate_conditions_fuel k c m = Some (_evaluate_conditions c m).
Proof.
  intros Hk. unfold _evaluate_conditions.
  assert (H2 : 2 * py_depth c + 2 <= fuel_for c) by (unfold fuel_for; lia).
  destruct (proj2 (fuel_enough m (fuel_for c)) c H2) as [r Hr].
  rewrite (Hr k Hk), (Hr _ (le_n _)). reflexivity.
Qed.

(** The methods satisfy the equations of their bodies. *)
Lemma _evaluate_condition_eq (c : pyval) (m : dict) :
  _evaluate_condition c m =
  match py_in (PStr "logic") c with
  | Raise e => Raise e
  | Ok true => _evaluate_conditions c m
  | Ok false => evaluate_leaf c m
  end.
Proof.
  pose proof (evaluate_condition_fuel_enough c m (S (fuel_for c)) ltac:(lia)) as H.
  rewrite evaluate_condition_fuel_S in H.
  destruct (py_in (PStr "logic") c) as [[|]|e].
  - rewrite evaluate_conditions_fuel_enough in H by lia. now injection H.
  - now injection H.
  - now injection H.
Qed.

Lemma _evaluate_conditions_eq (c : pyval) (m : dict) :
  _evaluate_conditions c m =
  (logic <- logic_of c ;;
   rules <- py_get c "rules" (PList []) ;;
   if negb (py_truthy rules) then Ok true
   else if logic =s? "AND" then
     items <- py_iter rules ;; all_res (fun rule => _evaluate_condition rule m) items
   else if logic =s? "OR" then
     items <- py_iter rules ;; any_res (fun rule => _evaluate_condition rule m) items
   else Ok false).
Proof.
  pose proof (evaluate_conditions_fuel_enough c m (S (fuel_for c)) ltac:(lia)) as H.
  rewrite evaluate_conditions_fuel_S in H.
  destruct (logic_of c) as [logic|e]; cbn [bind]; [|now injection H].
  destruct (py_get c "rules" (PList [])) as [rules|e] eqn:Hget; cbn [bind];
    [|now injection H].
  destruct (negb (py_truthy rules)); [now injection H|].
  assert (Hitems : forall items x, py_iter rules = Ok items -> In x items ->
            evaluate_condition_fuel (fuel_for c) x m = Some (_evaluate_condition x m)).
  { intros items x Hiter Hx. apply evaluate_condition_fuel_enough.
    pose proof (visited_rule_depth _ _ _ _ Hget Hiter Hx). unfold fuel_for. lia. }
  destruct (logic =s? "AND").
  { destruct (py_iter rules) as [items|e]; cbn [bind]; [|now injection H].
    rewrite (all_fueled_ext _ (fun x => Some (_evaluate_condition x m))) in H
      by (intros x Hx; eapply Hitems; eauto).
    rewrite all_fueled_some in H. now injection H. }
  destruct (logic =s? "OR"); [|now injection H].
  destruct (py_iter rules) as [items|e]; cbn [bind]; [|now injection H].
  rewrite (any_fueled_ext _ (fun x => Some (_evaluate_condition x m))) in H
    by (intros x Hx; eapply Hitems; eauto).
  rewrite any_fueled_some in H. now injection H.
Qed.

End Budget.

(** ** The text tests mean what their names say *)

Lemma append_nil_r (s : string) : s +++ EmptyString = s.
Proof. induction s as [|c s IH]; cbn; [reflexivity | now rewrite IH]. Qed.

Lemma append_assoc (a b c : string) : (a +++ b) +++ c = a +++ b +++ c.
Proof. induction a as [|x a IH]; cbn; [reflexivity | now rewrite IH]. Qed.

Lemma prefix_nil (s : string) : String.prefix EmptyString s = true.
Proof. now destruct s. Qed.

Lemma prefix_cons (a b : ascii) (p s : string) :
  String.prefix (String a p) (String b s) = Ascii.eqb a b && String.prefix p s.
Proof.
  cbn [String.prefix]. destruct (ascii_dec a b) as [->|Hne].
  - now rewrite Ascii.eqb_refl.
  - apply Ascii.eqb_neq in Hne. now rewrite Hne.
Qed.

Lemma str_startswith_spec (s p : string) :
  str_startswith s p = true <-> exists t, s = p +++ t.
Proof.
  unfold str_startswith. revert s.
  induction p as [|a p IH]; intros s.
  - rewrite prefix_nil. split; [exists s; reflexivity | reflexivity].
  - destruct s as [|b s].
    + cbn. split; [discriminate | intros [t Ht]; discriminate].
    + rewrite prefix_cons, andb_true_iff, Ascii.eqb_eq, IH. split.
      * intros [-> [t ->]]. now exists t.
      * intros [t Ht]. cbn in Ht. injection Ht as -> ->. split; [reflexivity | now exists t].
Qed.

Lemma str_endswith_spec (s p : string) :
  str_endswith s p = true <-> exists t, s = t +++ p.
Proof.
  induction s as [|c s IH]; cbn [str_endswith].
  - rewrite orb_false_r, String.eqb_eq. split.
    + intros <-. now exists EmptyString.
    + intros [t Ht]. destruct t; [assumption | discriminate].
  - rewrite orb_true_iff, String.eqb_eq, IH. split.
    + intros [<- | [t ->]]; [now exists EmptyString | now exists (String c t)].
    + intros [t Ht]. destruct t as [|c' t]; cbn in Ht; [now left|].
      injection Ht as -> ->. right. now exists t.
Qed.

Lemma str_contains_spec (s sub : string) :
  str_contains s sub = true <-> exists a b, s = a +++ sub +++ b.
Proof.
  induction s as [|c s IH]; cbn [str_contains].
  - rewrite orb_false_r. fold (str_startswith EmptyString sub).
    rewrite str_startswith_spec. split.
    + intros [t Ht]. now exists EmptyString, t.
    + intros [a [b Hab]]. destruct a; [now exists b | discriminate].
  - rewrite orb_true_iff, IH. fold (str_startswith (String c s) sub).
    rewrite str_startswith_spec. split.
    + intros [[t Ht] | [a [b ->]]]; [now exists EmptyString, t | now exists (String c a), b].
    + intros [a [b Hab]]. destruct a as [|c' a]; cbn in Hab.
      * left. now exists b.
      * injection Hab as -> ->. right. now exists a, b.
Qed.

Lemma str_is_empty_true (s : string) : str_is_empty s = true <-> s = EmptyString.
Proof. destruct s; cbn; split; congruence. Qed.

(** ** Dictionaries *)

Lemma dict_has_get {V : Type} (d : list (string * V)) (k : string) :
  dict_has d k = true <-> exists v, dict_get d k = Some v.
Proof.
  unfold dict_has. destruct (dict_get d k) as [v|].
  - split; [now exists v | reflexivity].
  - split; [discriminate | intros [v Hv]; discriminate].
Qed.

Lemma dict_get_set_same {V : Type} (d : list (string * V)) (k : string) (v : V) :
  dict_get (dict_set d k v) k = Some v.
Proof.
  induction d as [|[k' v'] d IH]; cbn [dict_set dict_get].
  - now rewrite String.eqb_refl.
  - destruct (k' =s? k) eqn:Hk; cbn [dict_get]; rewrite Hk; [reflexivity | exact IH].
Qed.

Lemma dict_get_set_other {V : Type} (d : list (string * V)) (k k' : string) (v : V) :
  k <> k' -> dict_get (dict_set d k v) k' = dict_get d k'.
Proof.
  intros Hne. induction d as [|[k0 v0] d IH]; cbn [dict_set dict_get].
  - apply String.eqb_neq in Hne. now rewrite Hne.
  - destruct (k0 =s? k) eqn:Hk; cbn [dict_get].
    + apply String.eqb_eq in Hk as ->.
      apply String.eqb_neq in Hne. now rewrite Hne.
    + now rewrite IH.
Qed.

(** [update] leaves a key that the other dictionary lacks as it was. *)
Lemma dict_update_absent {V : Type} (other d : list (string * V)) (k : string) :
  dict_get other k = None -> dict_get (dict_update d other) k = dict_get d k.
Proof.
  unfold dict_update. revert d.
  induction other as [|[k' v'] other IH]; intros d; cbn [fold_left dict_get fst snd].
  - reflexivity.
  - destruct (k' =s? k) eqn:Hk; [discriminate|]. intros Hget.
    rewrite (IH _ Hget). apply dict_get_set_other.
    now apply String.eqb_neq.
Qed.

(** [update] with a dictionary that has the key (and each key once)
    gives the key the other dictionary's value. *)
Lemma dict_update_present {V : Type} (other d : list (string * V)) (k : string) (v : V) :
  NoDup (map fst other) ->
  dict_get other k = Some v -> dict_get (dict_update d other) k = Some v.
Proof.
  unfold dict_update. revert d.
  induction other as [|[k' v'] other IH]; intros d Hnd; cbn [fold_left dict_get fst snd].
  - discriminate.
  - cbn [map fst] in Hnd. apply NoDup_cons_iff in Hnd as [Hnotin Hnd].
    destruct (k' =s? k) eqn:Hk.
    + intros [= ->]. apply String.eqb_eq in Hk as ->.
      assert (Habsent : dict_get other k = None).
      { clear -Hnotin. induction other as [|[k0 v0] other IH]; cbn [dict_get]; [reflexivity|].
        destruct (k0 =s? k) eqn:Hk0.
        - apply String.eqb_eq in Hk0 as ->. exfalso. apply Hnotin. now left.
        - apply IH. intros Hin. apply Hnotin. now right. }
      fold (dict_update (dict_set d k v) other).
      rewrite (dict_update_absent _ _ _ Habsent). apply dict_get_set_same.
    + intros Hget. now apply IH.
Qed.

(** * The planner: [get_new_location] *)

(** C10. [get_new_location] raises [FileNotFoundError] whenever the path
    does not name an existing file, whatever the rules and the metadata
    are: no rule is evaluated and no template resolved before the
    check. *)
Theorem missing_file_raises_first (platform : Platform) (self : FileSorter)
  (original_filepath : string) (metadata : dict) :
  os_path_exists original_filepath = false ->
  get_new_location self original_filepath metadata
  = Raise (FileNotFoundError ("File not found: " +++ original_filepath)).
Proof.
  intros Hmissing. unfold get_new_location. now rewrite Hmissing.
Qed.

(** The rules of this sorter are not even iterable; the missing file is
    reported all the same. *)
Lemma missing_file_raises_first_witness :
  @os_path_exists sample_platform "/inbox/gone.pdf" = false /\
  @get_new_location sample_platform (sorter_of (PInt 5) PNone) "/inbox/gone.pdf" []
  = Raise (FileNotFoundError "File not found: /inbox/gone.pdf").
Proof.
  split; [reflexivity|].
  apply (missing_file_raises_first sample_platform). reflexivity.
Defined.

(** C3, as stated, fails: a keyword argument named [filename] replaces
    the injected base name.  The file is [scan.pdf], the caller passes
    [filename="other.txt"], and the rule that tests
    [filename == "other.txt"] matches. *)
Lemma filename_keyword_overrides_basename :
  let metadata := [("filename", PStr "other.txt")] in
  let by_name :=
    rule "ByName" (group "AND" [leaf "filename" "equals" (PStr "other.txt")])
         "P" "{original}{ext}" in
  @os_path_basename sample_platform "/inbox/scan.pdf" = "scan.pdf" /\
  dict_get (file_metadata "scan.pdf" metadata) "filename" = Some (PStr "other.txt") /\
  @get_new_location sample_platform (sorter_of (PList [by_name]) (PDict []))
    "/inbox/scan.pdf" metadata
  = Ok ("/out/P", "scan.pdf", PStr "ByName").
Proof. repeat split; vm_compute; reflexivity. Qed.

(** C3, amended.  For an existing file, rule matching and template
    resolution run on the record [file_metadata (basename path) metadata].
    That record maps [filename] to the base name when the caller passes
    no keyword [filename]; a keyword [filename] passed by the caller is
    kept instead. *)
Theorem filename_injected_unless_overridden (platform : Platform)
  (self : FileSorter) (original_filepath : string) (metadata : dict) :
  os_path_exists original_filepath = true ->
  let original_filename := os_path_basename original_filepath in
  let file_md := file_metadata original_filename metadata in
  get_new_location self original_filepath metadata
  = plan_location self original_filename file_md metadata
  /\ (dict_get metadata "filename" = None ->
      dict_get file_md "filename" = Some (PStr original_filename))
  /\ (forall v, NoDup (map fst metadata) ->
      dict_get metadata "filename" = Some v ->
      dict_get file_md "filename" = Some v).
Proof.
  intros Hexists original_filename file_md. repeat split.
  - unfold get_new_location. now rewrite Hexists.
  - intros Habsent. unfold file_md, file_metadata.
    rewrite (dict_update_absent _ _ _ Habsent). reflexivity.
  - intros v Hnodup Hpresent. unfold file_md, file_metadata.
    now apply dict_update_present.
Qed.

Lemma filename_injected_unless_overridden_witness :
  let metadata := [("postbox_type", PStr "B")] in
  dict_get (file_metadata (@os_path_basename sample_platform "/inbox/scan.pdf") metadata)
    "filename" = Some (PStr "scan.pdf").
Proof.
  assert (Hexists : @os_path_exists sample_platform "/inbox/scan.pdf" = true)
    by reflexivity.
  destruct (filename_injected_unless_overridden sample_platform
              (sorter_of (PList []) (PDict [])) _ [("postbox_type", PStr "B")] Hexists)
    as [_ [Hinjected _]].
  apply Hinjected. reflexivity.
Defined.

(** * The condition evaluator *)

Lemma evaluate_leaf_dict (platform : Platform) (d metadata : dict) :
  evaluate_leaf (PDict d) metadata =
  (found <- lookup_field metadata (entry d "field") ;;
   match found with
   | None => Ok false
   | Some file_value =>
       apply_operator (entry d "operator") (entry d "value") file_value
   end).
Proof. reflexivity. Qed.

Lemma _evaluate_condition_leaf (platform : Platform) (d metadata : dict) :
  dict_has d "logic" = false ->
  _evaluate_condition (PDict d) metadata = evaluate_leaf (PDict d) metadata.
Proof.
  intros Hleaf. rewrite _evaluate_condition_eq. cbn [py_in]. now rewrite Hleaf.
Qed.

Lemma _evaluate_condition_nested (platform : Platform) (d metadata : dict) :
  dict_has d "logic" = true ->
  _evaluate_condition (PDict d) metadata = _evaluate_conditions (PDict d) metadata.
Proof.
  intros Hgroup. rewrite _evaluate_condition_eq. cbn [py_in]. now rewrite Hgroup.
Qed.

Lemma py_eq_str (a b : string) : py_eq (PStr a) (PStr b) = true <-> a = b.
Proof. cbn. apply String.eqb_eq. Qed.

(** An operator that is a given name is no earlier name of the chain. *)
Lemma py_eq_str_name (operator : pyval) (name : string) :
  py_eq operator (PStr name) = true <-> operator = PStr name.
Proof.
  destruct operator; cbn; try (split; [discriminate | congruence]).
  rewrite String.eqb_eq. split; congruence.
Qed.

(** C9. A group with a non-empty list of rules dispatches on the
    upper-cased [logic] text: a missing key means AND, any spelling that
    upper-cases to [AND] (or [OR]) is accepted -- so are [and], [And],
    [AND] and [or], [Or], [OR] -- and any other text gives [False]
    without evaluating a rule. *)
Theorem group_logic_dispatch (platform : Platform) (d metadata : dict)
  (first : pyval) (rest : list pyval) :
  dict_get d "rules" = Some (PList (first :: rest)) ->
  let rules := first :: rest in
  let evaluate := fun r => _evaluate_condition r metadata in
  (dict_get d "logic" = None ->
   _evaluate_conditions (PDict d) metadata = all_res evaluate rules)
  /\ (forall s, dict_get d "logic" = Some (PStr s) ->
      (py_upper s = "AND" ->
       _evaluate_conditions (PDict d) metadata = all_res evaluate rules)
      /\ (py_upper s = "OR" ->
          _evaluate_conditions (PDict d) metadata = any_res evaluate rules)
      /\ (py_upper s <> "AND" -> py_upper s <> "OR" ->
          _evaluate_conditions (PDict d) metadata = Ok false))
  /\ (py_upper "and" = "AND" /\ py_upper "And" = "AND" /\ py_upper "AND" = "AND")
  /\ (py_upper "or" = "OR" /\ py_upper "Or" = "OR" /\ py_upper "OR" = "OR").
Proof.
  intros Hrules rules evaluate.
  assert (Heq : forall logic, logic_of (PDict d) = Ok logic ->
            _evaluate_conditions (PDict d) metadata =
            if logic =s? "AND" then all_res evaluate rules
            else if logic =s? "OR" then any_res evaluate rules
            else Ok false).
  { intros logic Hlogic. rewrite _evaluate_conditions_eq, Hlogic.
    cbn [bind py_get]. rewrite Hrules. cbn [py_truthy negb py_iter bind].
    reflexivity. }
  split; [|split; [|split]].
  - intros Hnone. rewrite (Heq "AND"); [reflexivity|].
    unfold logic_of. cbn [py_get bind]. now rewrite Hnone.
  - intros s Hs.
    assert (Hlogic : logic_of (PDict d) = Ok (py_upper s)).
    { unfold logic_of. cbn [py_get bind]. now rewrite Hs. }
    rewrite (Heq _ Hlogic). repeat split.
    + intros ->. reflexivity.
    + intros ->. reflexivity.
    + intros Hand Hor. apply String.eqb_neq in Hand, Hor. now rewrite Hand, Hor.
  - repeat split.
  - repeat split.
Qed.

Lemma group_logic_dispatch_witness :
  let first := leaf "postbox_type" "equals" (PStr "A") in
  let second := leaf "postbox_type" "equals" (PStr "B") in
  let metadata := [("postbox_type", PStr "B")] in
  @_evaluate_conditions sample_platform
    (PDict [("logic", PStr "Or"); ("rules", PList [first; second])]) metadata
  = any_res (fun r => @_evaluate_condition sample_platform r metadata) [first; second].
Proof.
  intros first second metadata.
  destruct (group_logic_dispatch sample_platform
              [("logic", PStr "Or"); ("rules", PList [first; second])]
              metadata first [second] eq_refl) as [_ [Hlogic _]].
  destruct (Hlogic "Or" eq_refl) as [_ [Hor _]].
  apply Hor. reflexivity.
Defined.

(** C2, as stated, fails.  [equals] does not coerce: the field holds the
    number 5, the rule's value is the text "5", both have the text form
    "5", and the leaf is false.  The text operators do not take the text
    form of the rule's value: with the number 5 as the rule's value,
    [contains] raises, although "5" occurs in the text form "15" of the
    field. *)
Lemma equals_does_not_coerce :
  py_str (PInt 5) = py_str (PStr "5")
  /\ @_evaluate_condition sample_platform
       (leaf "n" "equals" (PStr "5")) [("n", PInt 5)] = Ok false
  /\ str_contains (py_str (PInt 15)) (py_str (PInt 5)) = true
  /\ @_evaluate_condition sample_platform
       (leaf "n" "contains" (PInt 5)) [("n", PInt 15)] = Raise TypeError.
Proof. repeat split; vm_compute; reflexivity. Qed.

(** C2, amended.  On a leaf whose field is present in the metadata:
    [equals] is Python's [==] with no coercion to text (a number and a
    string are never equal, two strings are equal when they are the same
    text); [contains], [starts_with], [ends_with] and [regex] test the
    rule's value, which must itself be a string, as it is against the
    text form of the field's value ([regex] searches it with the
    compiled pattern and gives [False] when compiling raises
    [re.error]); with a rule's value that is not a string these four
    operators raise [TypeError]. *)
Theorem operators_on_present_field (platform : Platform) (d metadata : dict)
  (field : string) (file_value : pyval) :
  dict_has d "logic" = false ->
  entry d "field" = PStr field ->
  dict_get metadata field = Some file_value ->
  let operator := entry d "operator" in
  let value := entry d "value" in
  let result := _evaluate_condition (PDict d) metadata in
  (operator = PStr "equals" -> result = Ok (py_eq file_value value))
  /\ (forall z s, py_eq (PInt z) (PStr s) = false /\ py_eq (PStr s) (PInt z) = false)
  /\ (forall a b, py_eq (PStr a) (PStr b) = true <-> a = b)
  /\ (forall v, value = PStr v ->
      (operator = PStr "contains" ->
       exists b, result = Ok b /\
         (b = true <-> exists pre post, py_str file_value = pre +++ v +++ post))
      /\ (operator = PStr "starts_with" ->
          exists b, result = Ok b /\
            (b = true <-> exists post, py_str file_value = v +++ post))
      /\ (operator = PStr "ends_with" ->
          exists b, result = Ok b /\
            (b = true <-> exists pre, py_str file_value = pre +++ v))
      /\ (operator = PStr "regex" ->
          result = match re_compile v with
                   | Compiled search => Ok (search (py_str file_value))
                   | PatternError => Ok false
                   | CompileRaises e => Raise e
                   end))
  /\ (is_text_operator operator = true -> is_str value = false ->
      result = Raise TypeError).
Proof.
  intros Hleaf Hfield Hpresent operator value result.
  assert (Hresult : result = apply_operator operator value file_value).
  { unfold result. rewrite (_evaluate_condition_leaf _ _ _ Hleaf), evaluate_leaf_dict.
    rewrite Hfield. cbn [lookup_field bind]. now rewrite Hpresent. }
  rewrite Hresult. clear Hresult. split; [|split; [|split; [|split]]].
  - intros ->. reflexivity.
  - intros z s. split; reflexivity.
  - apply py_eq_str.
  - intros v ->. repeat split.
    + intros ->. cbn. eexists. split; [reflexivity|]. apply str_contains_spec.
    + intros ->. cbn. eexists. split; [reflexivity|]. apply str_startswith_spec.
    + intros ->. cbn. eexists. split; [reflexivity|]. apply str_endswith_spec.
    + intros ->. reflexivity.
  - intros Htext Hvalue. unfold is_text_operator in Htext.
    repeat rewrite orb_true_iff in Htext. rewrite !py_eq_str_name in Htext.
    destruct Htext as [[[-> | ->] | ->] | ->]; destruct value; try discriminate; reflexivity.
Qed.

Lemma operators_on_present_field_witness :
  @_evaluate_condition sample_platform
    (leaf "n" "equals" (PStr "5")) [("n", PInt 5)]
  = Ok (py_eq (PInt 5) (PStr "5")).
Proof.
  destruct (operators_on_present_field sample_platform
              [("field", PStr "n"); ("operator", PStr "equals"); ("value", PStr "5")]
              [("n", PInt 5)] "n" (PInt 5) eq_refl eq_refl eq_refl) as [Hequals _].
  apply Hequals. reflexivity.
Defined.

(** * The shorthand compiler: [_convert_when_to_conditions] *)

Lemma when_leaves_flat_map (when : dict) :
  when_leaves when = flat_map entry_leaves when.
Proof.
  induction when as [|[field value] when IH]; cbn [when_leaves flat_map]; [reflexivity|].
  rewrite IH. f_equal. unfold entry_leaves. cbn [fst snd]. now destruct value.
Qed.

(** Every generated leaf is an equals-test on the field of its entry. *)
Lemma when_leaves_fields (when : dict) :
  exists fields, map leaf_field (when_leaves when) = map PStr fields.
Proof.
  induction when as [|[field value] when [fields IH]]; cbn [when_leaves].
  - now exists [].
  - rewrite map_app, IH.
    assert (Hentry : exists n, map leaf_field
              match value with
              | PList vs => map (equals_leaf field) vs
              | _ => [equals_leaf field value]
              end = map PStr (repeat field n)).
    { destruct value as [| | | |vs|]; try (now exists 1).
      exists (List.length vs). induction vs as [|v vs IHvs]; cbn; [reflexivity|].
      cbn in IHvs. now rewrite IHvs. }
    destruct Hentry as [n ->]. exists (repeat field n ++ fields). now rewrite map_app.
Qed.

Lemma py_set_size_zero (items : list pyval) :
  py_set_size items = 0 -> items = [].
Proof.
  induction items as [|x items IH]; cbn [py_set_size]; [reflexivity|].
  destruct (existsb (py_eq x) items) eqn:Hex; [|discriminate].
  intros Hsize. rewrite (IH Hsize) in Hex. discriminate.
Qed.

Lemma existsb_str (f : string) (fields : list string) :
  existsb (py_eq (PStr f)) (map PStr fields) = true <-> In f fields.
Proof.
  rewrite existsb_exists. split.
  - intros [x [Hin Heq]]. apply in_map_iff in Hin as [g [<- Hin]].
    apply py_eq_str in Heq. now subst.
  - intros Hin. exists (PStr f). split; [now apply in_map | now apply py_eq_str].
Qed.

(** The set of the fields has one element exactly when there is a field
    and all fields are the same. *)
Lemma py_set_size_one (fields : list string) :
  py_set_size (map PStr fields) = 1 <->
  fields <> [] /\ exists f, Forall (eq f) fields.
Proof.
  induction fields as [|f fields IH]; cbn [map py_set_size].
  - split; [discriminate | intros [Hne _]; now contradiction Hne].
  - destruct (existsb (py_eq (PStr f)) (map PStr fields)) eqn:Hex.
    + apply existsb_str in Hex. rewrite IH. split.
      * intros [_ [g Hall]]. split; [discriminate|]. exists g.
        constructor; [|assumption].
        rewrite Forall_forall in Hall. now apply Hall.
      * intros [_ [g Hall]]. inversion Hall; subst. split.
        -- intros ->. contradiction.
        -- now exists f.
    + assert (Hnotin : ~ In f fields).
      { intros Hin. apply existsb_str in Hin. congruence. }
      split.
      * intros [= Hsize]. apply py_set_size_zero in Hsize.
        destruct fields; [|discriminate]. split; [discriminate|].
        exists f. now constructor.
      * intros [_ [g Hall]]. inversion Hall as [|? ? <- Hrest]; subst.
        destruct fields as [|f' fields]; [reflexivity|].
        inversion Hrest; subst. exfalso. apply Hnotin. now left.
Qed.

(** C4, as stated, fails: a mapping that yields a single leaf -- every
    generated leaf then targets the same single field -- is compiled to
    an AND group, not to an OR group. *)
Lemma single_leaf_compiles_to_and :
  let when := [("postbox_type", PStr "INCOME")] in
  same_field (when_leaves when)
  /\ _convert_when_to_conditions when
     = group "AND" [equals_leaf "postbox_type" (PStr "INCOME")]
  /\ _convert_when_to_conditions when
     <> group "OR" [equals_leaf "postbox_type" (PStr "INCOME")].
Proof.
  cbv zeta. split; [|split].
  - exists "postbox_type". repeat constructor.
  - reflexivity.
  - discriminate.
Qed.

(** C4, amended.  Compilation is a total function of the mapping.  Each
    scalar entry yields one equals-leaf and each list entry one
    equals-leaf per listed value, in input order.  The leaves are
    combined in an OR group when there are at least two of them and all
    target the same field, and in an AND group otherwise (so a single
    leaf, and no leaf at all, give an AND group). *)
Theorem shorthand_compilation (when : dict) :
  let leaves := flat_map entry_leaves when in
  exists logic,
    _convert_when_to_conditions when = group logic leaves
    /\ (logic = "OR" <-> 2 <= List.length leaves /\ same_field leaves)
    /\ (logic <> "OR" -> logic = "AND").
Proof.
  intros leaves. unfold _convert_when_to_conditions.
  rewrite when_leaves_flat_map. fold leaves.
  destruct (when_leaves_fields when) as [fields Hfields].
  rewrite when_leaves_flat_map in Hfields. fold leaves in Hfields.
  assert (Hlen : List.length fields = List.length leaves).
  { rewrite <- (length_map PStr fields), <- Hfields. apply length_map. }
  assert (Hsame : same_field leaves <-> exists f, Forall (eq f) fields).
  { unfold same_field. split; intros [f Hall]; exists f.
    - apply Forall_forall. intros g Hg.
      assert (Hin : In (PStr g) (map leaf_field leaves))
        by (rewrite Hfields; now apply in_map).
      apply in_map_iff in Hin as [r [Hr Hin]].
      rewrite Forall_forall in Hall. rewrite (Hall r Hin) in Hr. congruence.
    - apply Forall_forall. intros r Hr.
      assert (Hin : In (leaf_field r) (map PStr fields))
        by (rewrite <- Hfields; now apply in_map).
      apply in_map_iff in Hin as [g [<- Hg]].
      rewrite Forall_forall in Hall. now rewrite (Hall g Hg). }
  destruct (List.length leaves =? 1) eqn:Hone.
  - exists "AND". split; [reflexivity|]. apply Nat.eqb_eq in Hone.
    split; [|reflexivity]. split; [discriminate | lia].
  - apply Nat.eqb_neq in Hone. rewrite Hfields.
    destruct (py_set_size (map PStr fields) =? 1) eqn:Hset.
    + exists "OR". split; [reflexivity|]. split; [|congruence].
      apply Nat.eqb_eq, py_set_size_one in Hset as [Hne Hall].
      split; [intros _ | reflexivity]. split; [|now apply Hsame].
      destruct fields; [contradiction|]. cbn in Hlen. lia.
    + exists "AND". split; [reflexivity|]. split; [|reflexivity].
      split; [discriminate|]. intros [Htwo Hall]. exfalso.
      apply Nat.eqb_neq in Hset. apply Hset, py_set_size_one.
      split; [|now apply Hsame].
      intros ->. cbn in Hlen. lia.
Qed.

(** * The rule matcher and the exactly-one-match rule *)

Lemma collect_matching_cons (platform : Platform) (rule : pyval)
  (rest : list pyval) (metadata : dict) :
  collect_matching (rule :: rest) metadata =
  (matched <- rule_matches rule metadata ;;
   matching_rules <- collect_matching rest metadata ;;
   Ok (if matched then rule :: matching_rules else matching_rules)).
Proof.
  cbn [collect_matching]. unfold rule_matches.
  now destruct (py_get rule "conditions" (PDict [])).
Qed.

(** The loop returns when every rule gives a verdict, and then returns
    the rules whose verdict is [True], in the order of the list. *)
Lemma collect_matching_filter (platform : Platform) (rules : list pyval)
  (metadata : dict) (matching : list pyval) :
  collect_matching rules metadata = Ok matching <->
  Forall (fun r => exists b, rule_matches r metadata = Ok b) rules
  /\ matching = filter (fun r => holds (rule_matches r metadata)) rules.
Proof.
  revert matching. induction rules as [|rule rules IH]; intros matching.
  - cbn. split; [intros [= <-]; now split | intros [_ ->]; reflexivity].
  - rewrite collect_matching_cons. cbn [filter]. split.
    + destruct (rule_matches rule metadata) as [b|e] eqn:Hrule; cbn [bind]; [|discriminate].
      destruct (collect_matching rules metadata) as [ms|e] eqn:Hrest; cbn [bind];
        [|discriminate].
      intros [= <-]. destruct (proj1 (IH ms) eq_refl) as [Hall ->]. split.
      * constructor; [now exists b | assumption].
      * now destruct b.
    + intros [Hall ->]. inversion Hall as [|? ? [b Hb] Hrest]; subst.
      rewrite Hb. cbn [bind holds].
      rewrite (proj2 (IH _) (conj Hrest eq_refl)). cbn [bind]. now destruct b.
Qed.

Lemma filter_permutation {A : Type} (f : A -> bool) (l l' : list A) :
  Permutation l l' -> Permutation (filter f l) (filter f l').
Proof.
  induction 1 as [|x l l' _ IH|x y l|l l' l'' _ IH1 _ IH2]; cbn [filter].
  - constructor.
  - destruct (f x); [now constructor | assumption].
  - destruct (f x), (f y); try apply Permutation_refl. apply perm_swap.
  - now apply (perm_trans IH1).
Qed.

Lemma find_all_with_rules (platform : Platform) (self : FileSorter)
  (rules : list pyval) (metadata : dict) :
  _find_all_matching_rules (with_rules self rules) metadata
  = collect_matching rules metadata.
Proof.
  unfold _find_all_matching_rules, config_rules, with_rules. cbn [config].
  now rewrite dict_get_set_same.
Qed.

Lemma rule_names_of_named (matching : list pyval) (names : list string) :
  Forall2 named matching names ->
  rule_names_of matching = Ok (map PStr names).
Proof.
  induction 1 as [|rule name matching names Hname _ IH]; cbn [rule_names_of map].
  - reflexivity.
  - unfold named in Hname. now rewrite Hname, IH.
Qed.

Lemma py_join_strings (sep : string) (names : list string) :
  py_join sep (map PStr names) = Ok (str_join sep names).
Proof.
  unfold py_join.
  assert (Hitems : py_join_items (map PStr names) = Ok names).
  { induction names as [|n names IH]; cbn; [reflexivity | now rewrite IH]. }
  now rewrite Hitems.
Qed.

Lemma collect_matching_dicts (platform : Platform) (rules : list pyval)
  (metadata : dict) (matching : list pyval) :
  collect_matching rules metadata = Ok matching ->
  Forall (fun r => exists d, r = PDict d) matching.
Proof.
  revert matching. induction rules as [|r rules IH]; intros matching;
    cbn [collect_matching].
  - intros [= <-]. constructor.
  - destruct r as [| | | | |d]; cbn [py_get bind]; try discriminate.
    destruct (_evaluate_conditions
                match dict_get d "conditions" with Some v => v | None => PDict [] end
                metadata) as [matched|]; cbn [bind]; [|discriminate].
    destruct (collect_matching rules metadata) as [ms|]; cbn [bind]; [|discriminate].
    intros [= <-]. specialize (IH ms eq_refl).
    destruct matched; [constructor; [now exists d | assumption] | assumption].
Qed.

(** A name that is not text makes the [join] of the names raise. *)
Lemma rule_names_not_text (matching : list pyval) (rule v : pyval) :
  Forall (fun r => exists d, r = PDict d) matching ->
  In rule matching ->
  py_get rule "name" (PStr "Unnamed") = Ok v ->
  is_str v = false ->
  (names <- rule_names_of matching ;; py_join ", " names) = Raise TypeError.
Proof.
  unfold py_join.
  induction matching as [|r matching IH]; intros Hdicts Hin Hname Hv; [contradiction|].
  inversion Hdicts as [|? ? [d ->] Hrest]; subst.
  cbn [rule_names_of py_get bind].
  destruct Hin as [<- | Hin].
  - cbn [py_get] in Hname. injection Hname as Hname. rewrite Hname.
    destruct (rule_names_of matching) as [names|] eqn:Hnames; cbn [bind].
    + destruct v; try discriminate; reflexivity.
    + exfalso. clear -Hrest Hnames.
      induction matching as [|r matching IH]; [discriminate|].
      inversion Hrest as [|? ? [d' ->] Hrest']; subst.
      cbn [rule_names_of py_get bind] in Hnames.
      destruct (rule_names_of matching); [discriminate | now apply IH].
  - specialize (IH Hrest Hin Hname Hv).
    destruct (rule_names_of matching) as [names|]; cbn [bind] in IH |- *.
    + destruct (py_join_items names) as [parts|e] eqn:Hparts;
        rewrite ?Hparts in IH; cbn [bind] in IH; [discriminate|].
      injection IH as ->.
      destruct (match dict_get d "name" with Some n => n | None => PStr "Unnamed" end);
        cbn [py_join_items bind]; rewrite ?Hparts; reflexivity.
    + exact IH.
Qed.

(** C5, as stated, fails.  Two rules are satisfied, and the planner
    raises [TypeError], not the ambiguity error: the name of one of them
    is the number 2024, which [', '.join] refuses.  No rule is
    satisfied, and the planner raises [TypeError], not the no-match
    error: evaluating the only rule raises. *)
Lemma ambiguity_report_needs_text_names :
  let numbered := PDict [("name", PInt 2024); ("conditions", group "AND" [])] in
  let other := rule "Everything" (group "AND" []) "Other" "{original}{ext}" in
  let ill_typed := rule "Fives" (group "AND" [leaf "n" "contains" (PInt 5)])
                     "Fives" "{original}{ext}" in
  @rule_matches sample_platform numbered [("filename", PStr "scan.pdf")] = Ok true
  /\ @rule_matches sample_platform other [("filename", PStr "scan.pdf")] = Ok true
  /\ @get_new_location sample_platform
       (sorter_of (PList [numbered; other]) (PDict [])) "/inbox/scan.pdf" []
     = Raise TypeError
  /\ @get_new_location sample_platform
       (sorter_of (PList [ill_typed]) (PDict [])) "/inbox/scan.pdf" [("n", PInt 15)]
     = Raise TypeError.
Proof. repeat split; vm_compute; reflexivity. Qed.

(** C5, amended.  For an existing file the planner evaluates every rule
    on the prepared record; an exception raised there propagates.  When
    every rule gives a verdict, [matching] is the list of the satisfied
    rules in configuration order, and:
    - with no such rule the planner raises [ValueError] with the text
      [No matching rule found for file '<name>' with metadata: <keywords>];
    - with two or more it resolves no template and raises: when the
      names of the matched rules are text, [ValueError] with the text
      [Multiple rules matched for file '<name>': <names>. Each file must
      match exactly one rule. Metadata: <keywords>], where [<names>] are
      the names of all matched rules in configuration order joined by a
      comma and a space; when a matched rule has a name that is not
      text, [TypeError];
    - with exactly one it returns what template resolution for that rule
      returns.
    The two failures are both [ValueError] (the code has no error types
    of its own) and always differ in their text. *)
Theorem exactly_one_match_enforced (platform : Platform) (self : FileSorter)
  (original_filepath : string) (metadata : dict) :
  os_path_exists original_filepath = true ->
  let original_filename := os_path_basename original_filepath in
  let file_md := file_metadata original_filename metadata in
  let keywords := py_str (PDict metadata) in
  let no_match_text :=
    "No matching rule found for file '" +++ original_filename
    +++ "' with metadata: " +++ keywords in
  let ambiguous_text := fun names =>
    "Multiple rules matched for file '" +++ original_filename +++ "': "
    +++ str_join ", " names
    +++ ". Each file must match exactly one rule. Metadata: " +++ keywords in
  let result := get_new_location self original_filepath metadata in
  (forall e, _find_all_matching_rules self file_md = Raise e -> result = Raise e)
  /\ (forall matching,
        _find_all_matching_rules self file_md = Ok matching ->
        (exists rules, py_iter (config_rules self) = Ok rules
           /\ matching = filter (fun r => holds (rule_matches r file_md)) rules)
        /\ (matching = [] -> result = Raise (ValueError no_match_text))
        /\ (2 <= List.length matching ->
            (exists e, result = Raise e)
            /\ (forall names, Forall2 named matching names ->
                  result = Raise (ValueError (ambiguous_text names)))
            /\ (forall rule v,
                  In rule matching ->
                  py_get rule "name" (PStr "Unnamed") = Ok v ->
                  is_str v = false ->
                  result = Raise TypeError))
        /\ (forall rule, matching = [rule] ->
            result = resolve_location self rule file_md original_filename))
  /\ (forall names, ambiguous_text names <> no_match_text).
Proof.
  intros Hexists original_filename file_md keywords no_match_text ambiguous_text result.
  assert (Hresult : result = plan_location self original_filename file_md metadata).
  { unfold result, get_new_location. now rewrite Hexists. }
  rewrite Hresult. unfold plan_location. split; [|split].
  - intros e ->. reflexivity.
  - intros matching Hfind. rewrite Hfind. cbn [bind].
    assert (Hcollect : exists rules, py_iter (config_rules self) = Ok rules
                         /\ collect_matching rules file_md = Ok matching).
    { unfold _find_all_matching_rules in Hfind.
      destruct (py_iter (config_rules self)) as [rules|e]; [|discriminate].
      now exists rules. }
    destruct Hcollect as [rules [Hiter Hcollect]].
    split; [|split; [|split]].
    + exists rules. split; [assumption|].
      now apply collect_matching_filter in Hcollect.
    + intros ->. reflexivity.
    + intros Htwo. destruct matching as [|r1 [|r2 matching]]; cbn in Htwo; try lia.
      split; [|split].
      * destruct (rule_names_of (r1 :: r2 :: matching)) as [names|e]; cbn [bind];
          [|now exists e].
        destruct (py_join ", " names) as [joined|e]; cbn [bind]; eexists; reflexivity.
      * intros names Hnames.
        rewrite (rule_names_of_named _ _ Hnames). cbn [bind].
        rewrite py_join_strings. reflexivity.
      * intros rule v Hin Hname Hv.
        pose proof (rule_names_not_text _ _ _ (collect_matching_dicts _ _ _ _ Hcollect)
                      Hin Hname Hv) as Hraise.
        destruct (rule_names_of (r1 :: r2 :: matching)) as [names|e];
          cbn [bind] in Hraise |- *;
          [now rewrite Hraise | injection Hraise as ->; reflexivity].
    + intros rule ->. reflexivity.
  - intros names. unfold ambiguous_text, no_match_text. cbn [String.append].
    discriminate.
Qed.

(** Two rules match the record of the sample file; the error names both,
    in configuration order. *)
Lemma exactly_one_match_enforced_witness :
  let dividends := rule "Dividends" (group "AND" [leaf "postbox_type" "equals" (PStr "B")])
                     "Income" "{original}{ext}" in
  let catch_all := rule "Everything" (PDict []) "Other" "{original}{ext}" in
  let metadata := [("postbox_type", PStr "B")] in
  @get_new_location sample_platform
    (sorter_of (PList [dividends; catch_all]) (PDict [])) "/inbox/scan.pdf" metadata
  = Raise (ValueError
      "Multiple rules matched for file 'scan.pdf': Dividends, Everything. Each file must match exactly one rule. Metadata: {'postbox_type': 'B'}").
Proof.
  intros dividends catch_all metadata.
  destruct (exactly_one_match_enforced sample_platform
              (sorter_of (PList [dividends; catch_all]) (PDict []))
              "/inbox/scan.pdf" metadata eq_refl) as [_ [Hmatching _]].
  destruct (Hmatching [dividends; catch_all] eq_refl) as [_ [_ [Hmany _]]].
  destruct (Hmany (le_n 2)) as [_ [Hnames _]].
  apply (Hnames ["Dividends"; "Everything"]).
  repeat constructor.
Defined.

(** C8. Permuting the list of rules permutes the list of matching rules
    and nothing else: the same rules match.  When exactly one rule
    matches, [get_new_location] gives the same result for the permuted
    list. *)
Theorem rule_order_irrelevant (platform : Platform) (self : FileSorter)
  (rules rules' : list pyval) :
  Permutation rules rules' ->
  (forall metadata matching,
     _find_all_matching_rules (with_rules self rules) metadata = Ok matching ->
     exists matching',
       _find_all_matching_rules (with_rules self rules') metadata = Ok matching'
       /\ Permutation matching matching')
  /\ (forall original_filepath metadata rule,
        _find_all_matching_rules (with_rules self rules)
          (file_metadata (os_path_basename original_filepath) metadata) = Ok [rule] ->
        get_new_location (with_rules self rules') original_filepath metadata
        = get_new_location (with_rules self rules) original_filepath metadata).
Proof.
  intros Hperm.
  assert (Hfind : forall metadata matching,
            _find_all_matching_rules (with_rules self rules) metadata = Ok matching ->
            exists matching',
              _find_all_matching_rules (with_rules self rules') metadata = Ok matching'
              /\ Permutation matching matching').
  { intros metadata matching. rewrite !find_all_with_rules.
    intros Hfind. apply collect_matching_filter in Hfind as [Hall ->].
    exists (filter (fun r => holds (rule_matches r metadata)) rules'). split.
    - apply collect_matching_filter. split; [|reflexivity].
      now apply (Permutation_Forall Hperm).
    - now apply filter_permutation. }
  split; [exact Hfind|].
  intros original_filepath metadata rule Hone.
  destruct (Hfind _ _ Hone) as [matching' [Hfind' Hperm']].
  apply Permutation_length_1_inv in Hperm' as ->.
  unfold get_new_location.
  destruct (negb (os_path_exists original_filepath)); [reflexivity|].
  cbv zeta. unfold plan_location. rewrite Hone, Hfind'. reflexivity.
Qed.

Lemma rule_order_irrelevant_witness :
  let dividends := rule "Dividends" (group "AND" [leaf "postbox_type" "equals" (PStr "B")])
                     "Income/{event_title}" "{event_title}.pdf" in
  let taxes := rule "Taxes" (group "AND" [leaf "postbox_type" "equals" (PStr "T")])
                 "Taxes" "{original}{ext}" in
  let self := sorter_of (PList []) (PDict []) in
  let metadata := [("postbox_type", PStr "B"); ("event_title", PStr "Apple")] in
  @get_new_location sample_platform (with_rules self [taxes; dividends])
    "/inbox/scan.pdf" metadata
  = @get_new_location sample_platform (with_rules self [dividends; taxes])
      "/inbox/scan.pdf" metadata.
Proof.
  intros dividends taxes self metadata.
  destruct (rule_order_irrelevant sample_platform self
              [dividends; taxes] [taxes; dividends] (perm_swap _ _ _)) as [_ Hsame].
  apply (Hsame "/inbox/scan.pdf" metadata dividends). reflexivity.
Defined.

(** * The template resolver *)

(** The loop over the options returns the resolution of the first option
    that resolves, and the empty text when none does. *)
Lemma first_resolving_resolution (metadata : dict) (options : list string) :
  first_resolving metadata options =
  match first_resolution metadata options with
  | Some text => text
  | None => EmptyString
  end.
Proof.
  induction options as [|opt options IH]; cbn [first_resolving first_resolution].
  - reflexivity.
  - unfold option_resolution, dict_has.
    destruct (is_quoted opt); [reflexivity|].
    destruct (opt =s? "filename").
    + rewrite andb_false_r. exact IH.
    + rewrite andb_true_r.
      destruct (dict_get metadata opt) as [value|]; [|exact IH].
      destruct value; cbn [is_none negb andb]; try exact IH;
        match goal with
        | |- context [str_is_empty ?s] => destruct (str_is_empty s)
        end; cbn [negb]; solve [reflexivity | exact IH].
Qed.


Lemma first_resolution_none (metadata : dict) (options : list string) :
  first_resolution metadata options = None <->
  Forall (fun o => option_resolution metadata o = None) options.
Proof.
  induction options as [|o options IH]; cbn [first_resolution].
  - split; [constructor | reflexivity].
  - destruct (option_resolution metadata o) as [t|] eqn:Ho.
    + split; [discriminate|]. intros Hall. inversion Hall; subst. congruence.
    + rewrite IH. split; [now constructor | intros Hall; now inversion Hall].
Qed.

(** Text without an opening brace is copied. *)
Lemma sub_placeholders_outside (repl : string -> string) (before rest : string) :
  str_has_char open_brace before = false ->
  sub_placeholders repl None (before +++ rest)
  = before +++ sub_placeholders repl None rest.
Proof.
  induction before as [|c before IH]; cbn [str_has_char String.append]; [reflexivity|].
  intros Hno. apply orb_false_iff in Hno as [Hc Hbefore].
  cbn [sub_placeholders]. rewrite Hc. now rewrite IH.
Qed.

(** After an opening brace the text up to the first closing brace is the
    content of the token. *)
Lemma sub_placeholders_inside (repl : string -> string) (acc content rest : string) :
  str_has_char close_brace content = false ->
  sub_placeholders repl (Some acc) (content +++ String close_brace rest)
  = if str_is_empty (acc +++ content)
    then String open_brace (String close_brace (sub_placeholders repl None rest))
    else repl (acc +++ content) +++ sub_placeholders repl None rest.
Proof.
  revert acc. induction content as [|c content IH]; intros acc;
    cbn [str_has_char String.append].
  - intros _. rewrite append_nil_r. cbn [sub_placeholders].
    now rewrite Ascii.eqb_refl.
  - intros Hno. apply orb_false_iff in Hno as [Hc Hcontent].
    cbn [sub_placeholders]. rewrite Hc, (IH _ Hcontent), append_assoc. reflexivity.
Qed.

(** One token between text that holds no brace of its own before it. *)
Lemma sub_placeholders_token (repl : string -> string)
  (before content after : string) :
  str_has_char open_brace before = false ->
  str_has_char close_brace content = false ->
  content <> EmptyString ->
  sub_placeholders repl None
    (before +++ String open_brace (content +++ String close_brace after))
  = before +++ repl content +++ sub_placeholders repl None after.
Proof.
  intros Hbefore Hcontent Hne.
  rewrite (sub_placeholders_outside _ _ _ Hbefore). f_equal.
  cbn [sub_placeholders]. rewrite Ascii.eqb_refl.
  rewrite (sub_placeholders_inside _ _ _ _ Hcontent). cbn [String.append].
  destruct content; [contradiction | reflexivity].
Qed.



(** * Totality *)

Lemma all_res_total (f : pyval -> res bool) (items : list pyval) :
  (forall x, In x items -> exists b, f x = Ok b) ->
  exists b, all_res f items = Ok b.
Proof.
  induction items as [|x items IH]; intros Hall; cbn [all_res].
  - now exists true.
  - destruct (Hall x (or_introl eq_refl)) as [b ->]. cbn [bind].
    destruct b; [|now exists false].
    apply IH. intros y Hy. apply Hall. now right.
Qed.

Lemma any_res_total (f : pyval -> res bool) (items : list pyval) :
  (forall x, In x items -> exists b, f x = Ok b) ->
  exists b, any_res f items = Ok b.
Proof.
  induction items as [|x items IH]; intros Hall; cbn [any_res].
  - now exists false.
  - destruct (Hall x (or_introl eq_refl)) as [b ->]. cbn [bind].
    destruct b; [now exists true|].
    apply IH. intros y Hy. apply Hall. now right.
Qed.

(** An operator outside the six names gives [False]. *)
Lemma apply_operator_unknown (platform : Platform) (operator value file_value : pyval) :
  is_known_operator operator = false ->
  apply_operator operator value file_value = Ok false.
Proof.
  unfold is_known_operator, is_text_operator, apply_operator.
  intros Hunknown.
  repeat match goal with
         | H : _ || _ = false |- _ => apply orb_false_iff in H as [? ?]
         end.
  repeat match goal with H : py_eq _ _ = false |- _ => rewrite H; clear H end.
  reflexivity.
Qed.

Lemma apply_operator_total (platform : Platform) (operator value file_value : pyval) :
  value_fits operator value = true ->
  exists b, apply_operator operator value file_value = Ok b.
Proof.
  unfold value_fits, is_text_operator, apply_operator, pattern_settled.
  intros Htyped.
  destruct (py_eq operator (PStr "equals")); [eexists; reflexivity|].
  destruct (py_eq operator (PStr "not_equals")); [eexists; reflexivity|].
  destruct (py_eq operator (PStr "regex")) eqn:Hregex.
  - apply py_eq_str_name in Hregex as ->. cbn.
    destruct value; try discriminate.
    destruct (re_compile s); try discriminate; eexists; reflexivity.
  - rewrite orb_false_r in Htyped.
    destruct (py_eq operator (PStr "contains")) eqn:H1;
      [|destruct (py_eq operator (PStr "starts_with")) eqn:H2;
        [|destruct (py_eq operator (PStr "ends_with")) eqn:H3]];
      cbn in Htyped; try (eexists; reflexivity);
      destruct value; try discriminate; cbn [py_in];
      eexists; reflexivity.
Qed.

Lemma lookup_field_hashable (metadata : dict) (field : pyval) :
  hashable field = true -> exists found, lookup_field metadata field = Ok found.
Proof.
  destruct field; cbn; try discriminate; intros _; eexists; reflexivity.
Qed.

Lemma logic_of_text (d : dict) :
  logic_is_text d = true -> exists logic, logic_of (PDict d) = Ok logic.
Proof.
  unfold logic_is_text, logic_of. cbn [py_get bind].
  destruct (dict_get d "logic") as [[| | |s| |]|]; try discriminate;
    intros _; eexists; reflexivity.
Qed.

Lemma well_typed_group_step (platform : Platform) (metadata : dict) (n : nat) :
  (forall x, py_depth x <= n -> well_typed_condition x ->
     exists b, _evaluate_condition x metadata = Ok b) ->
  forall g, py_depth g <= S n -> well_typed_group g ->
    exists b, _evaluate_conditions g metadata = Ok b.
Proof.
  intros IH g Hdepth Hwt. rewrite _evaluate_conditions_eq.
  destruct Hwt as [d Hlogic Hfalsy | d l Hlogic Hrules Hitems].
  - destruct (logic_of_text d Hlogic) as [logic ->]. cbn [bind py_get].
    fold (rules_entry d). rewrite Hfalsy. now exists true.
  - destruct (logic_of_text d Hlogic) as [logic ->]. cbn [bind py_get].
    rewrite Hrules.
    assert (Hsub : forall x, In x l -> exists b, _evaluate_condition x metadata = Ok b).
    { intros x Hx. apply IH.
      - pose proof (depth_list_in _ _ Hx). pose proof (depth_dict_get _ _ _ Hrules). lia.
      - rewrite Forall_forall in Hitems. now apply Hitems. }
    destruct (negb (py_truthy (PList l))); [now exists true|].
    cbn [py_iter bind].
    destruct (logic =s? "AND"); [now apply all_res_total|].
    destruct (logic =s? "OR"); [now apply any_res_total | now exists false].
Qed.

Lemma well_typed_condition_step (platform : Platform) (metadata : dict) (n : nat) :
  (forall g, py_depth g <= n -> well_typed_group g ->
     exists b, _evaluate_conditions g metadata = Ok b) ->
  forall c, py_depth c <= n -> well_typed_condition c ->
    exists b, _evaluate_condition c metadata = Ok b.
Proof.
  intros Hgroup c Hdepth Hwt.
  destruct Hwt as [d Hleaf Htyped | d Hnested Hwt].
  - rewrite (_evaluate_condition_leaf _ _ _ Hleaf), evaluate_leaf_dict.
    unfold leaf_well_typed in Htyped. apply andb_true_iff in Htyped as [Hfield Hvalue].
    destruct (lookup_field_hashable metadata _ Hfield) as [found ->]. cbn [bind].
    destruct found as [file_value|]; [|now exists false].
    now apply apply_operator_total.
  - rewrite (_evaluate_condition_nested _ _ _ Hnested). now apply Hgroup.
Qed.

Lemma well_typed_total (platform : Platform) (metadata : dict) (n : nat) :
  (forall c, py_depth c <= n -> well_typed_condition c ->
     exists b, _evaluate_condition c metadata = Ok b)
  /\ (forall g, py_depth g <= n -> well_typed_group g ->
        exists b, _evaluate_conditions g metadata = Ok b).
Proof.
  induction n as [|n [IHc IHg]].
  - assert (Hgroup : forall g, py_depth g <= 0 -> well_typed_group g ->
              exists b, _evaluate_conditions g metadata = Ok b).
    { intros g Hdepth Hwt. destruct Hwt; cbn [py_depth] in Hdepth; lia. }
    split; [|exact Hgroup]. now apply well_typed_condition_step.
  - pose proof (well_typed_group_step platform metadata n IHc) as Hgroup.
    split; [|exact Hgroup]. now apply well_typed_condition_step.
Qed.

Lemma table_entry_is_str (d : dict) (k : string) (v : pyval) :
  forallb (fun kv => is_str (snd kv)) d = true ->
  dict_get d k = Some v -> is_str v = true.
Proof.
  induction d as [|[k' v'] d IH]; cbn [forallb dict_get snd]; [discriminate|].
  intros Hall. apply andb_true_iff in Hall as [Hv Hall].
  destruct (k' =s? k); [intros [= <-]; assumption | now apply IH].
Qed.

Lemma expand_template_refs_total (table : pyval) (matches : list string)
  (result : string) :
  table_well_typed table = true ->
  exists expanded, expand_template_refs table matches result = Ok expanded.
Proof.
  destruct table as [| | | | |d]; cbn [table_well_typed]; try discriminate.
  intros Htable. revert result.
  induction matches as [|name matches IH]; intros result; cbn [expand_template_refs].
  - now exists result.
  - cbn [py_in bind py_subscript]. unfold dict_has.
    destruct (dict_get d name) as [v|] eqn:Hget; cbn [bind]; [|apply IH].
    pose proof (table_entry_is_str _ _ _ Htable Hget) as Hstr.
    destruct v; try discriminate. apply IH.
Qed.

(** Names that the table does not hold leave the text as it is. *)
Lemma expand_template_refs_unknown (table : pyval) (matches : list string)
  (result : string) :
  (forall name, In name matches -> py_in (PStr name) table = Ok false) ->
  expand_template_refs table matches result = Ok result.
Proof.
  induction matches as [|name matches IH]; intros Hunknown; cbn [expand_template_refs].
  - reflexivity.
  - rewrite (Hunknown name (or_introl eq_refl)). cbn [bind].
    apply IH. intros other Hother. apply Hunknown. now right.
Qed.

(** C1, as stated, fails: values of another type than the operation
    expects make evaluation and resolution raise.  A [contains] test
    whose value is the number 5, a group whose [logic] is [None] and a
    snippet whose body is the number 2024 all raise. *)
Lemma ill_typed_values_raise :
  @_evaluate_condition sample_platform
    (leaf "n" "contains" (PInt 5)) [("n", PInt 15)] = Raise TypeError
  /\ @_evaluate_conditions sample_platform
       (PDict [("logic", PNone); ("rules", PList [])]) [] = Raise AttributeError
  /\ @_replace_placeholders sample_platform
       (sorter_of (PList []) (PDict [("year", PInt 2024)]))
       "$template.year" [] "scan.pdf" = Raise TypeError.
Proof. repeat split; vm_compute; reflexivity. Qed.

(** C1, amended.  On well-typed input -- a condition tree whose groups
    have a text [logic] (or none) and an empty or list-valued [rules],
    and whose leaves have a hashable field, a text value for the four
    text operators and, for [regex], a pattern on which the engine
    raises nothing but [re.error]; a template table that is a dictionary
    of texts --
    [_evaluate_condition] and [_evaluate_conditions] return a boolean
    and [_replace_placeholders] returns a string.  There a pattern that
    does not compile, an unknown operator and a missing field give
    [False]; names that the table lacks leave the template to the
    placeholder pass as it is; and a chain none of whose options
    resolves gives the empty text. *)
Theorem well_typed_evaluation_total (platform : Platform) (self : FileSorter)
  (condition conditions : pyval) (template : string) (metadata : dict)
  (original_filename : string) :
  well_typed_condition condition ->
  well_typed_group conditions ->
  table_well_typed (templates self) = true ->
  (exists b, _evaluate_condition condition metadata = Ok b)
  /\ (exists b, _evaluate_conditions conditions metadata = Ok b)
  /\ (exists text,
        _replace_placeholders self template metadata original_filename = Ok text)
  /\ (forall pattern file_value,
        re_compile pattern = PatternError ->
        apply_operator (PStr "regex") (PStr pattern) file_value = Ok false)
  /\ (forall operator value file_value,
        is_known_operator operator = false ->
        apply_operator operator value file_value = Ok false)
  /\ (forall d field,
        dict_has d "logic" = false ->
        entry d "field" = PStr field ->
        dict_get metadata field = None ->
        _evaluate_condition (PDict d) metadata = Ok false)
  /\ ((forall name, In name (findall_template_refs template) ->
         py_in (PStr name) (templates self) = Ok false) ->
      _replace_placeholders self template metadata original_filename
      = Ok (sub_placeholders (replace_with_fallback metadata original_filename)
              None template))
  /\ (forall options,
        Forall (fun o => option_resolution metadata o = None) options ->
        first_resolving metadata options = EmptyString).
Proof.
  intros Hcondition Hconditions Htable.
  split; [|split; [|split; [|split; [|split; [|split; [|split]]]]]].
  - exact (proj1 (well_typed_total platform metadata (py_depth condition))
             condition (le_n _) Hcondition).
  - exact (proj2 (well_typed_total platform metadata (py_depth conditions))
             conditions (le_n _) Hconditions).
  - unfold _replace_placeholders.
    destruct (expand_template_refs_total (templates self)
                (findall_template_refs template) template Htable) as [expanded ->].
    cbn [bind]. eexists. reflexivity.
  - intros pattern file_value Hbad. cbn. now rewrite Hbad.
  - intros operator value file_value. apply apply_operator_unknown.
  - intros d field Hleaf Hfield Habsent.
    rewrite (_evaluate_condition_leaf _ _ _ Hleaf), evaluate_leaf_dict, Hfield.
    cbn [lookup_field bind]. now rewrite Habsent.
  - intros Hunknown. unfold _replace_placeholders.
    now rewrite (expand_template_refs_unknown _ _ _ Hunknown).
  - intros options Hnone. apply first_resolution_none in Hnone.
    now rewrite first_resolving_resolution, Hnone.
Qed.

(** A rule with a typing slip in its operator and a pattern that does
    not compile is evaluated to [False]. *)
Lemma well_typed_evaluation_total_witness :
  let typo := leaf "postbox_type" "equal" (PStr "B") in
  let malformed := leaf "postbox_type" "regex" (PStr "[invalid(") in
  let conditions := group "or" [typo; malformed] in
  exists b,
    @_evaluate_conditions sample_platform conditions [("postbox_type", PStr "B")] = Ok b.
Proof.
  intros typo malformed conditions.
  assert (Htypo : @well_typed_condition sample_platform typo).
  { apply wt_leaf; reflexivity. }
  assert (Hmalformed : @well_typed_condition sample_platform malformed).
  { apply wt_leaf; reflexivity. }
  assert (Hconditions : @well_typed_group sample_platform conditions).
  { apply (wt_rules _ [typo; malformed]); [reflexivity | reflexivity |].
    repeat constructor; assumption. }
  destruct (well_typed_evaluation_total sample_platform
              (sorter_of (PList []) (PDict [("standard", PStr "{event_title}.pdf")]))
              typo conditions "$template.standard" [("postbox_type", PStr "B")]
              "scan.pdf" Htypo Hconditions eq_refl) as [_ [Hgroup _]].
  exact Hgroup.
Defined.

(** * Snippet expansion *)

(** C7 does not hold of the code: the snippet pass replaces every
    occurrence of the text [$template.<name>] with [str.replace], also
    where it is the beginning of a longer token and where an earlier
    replacement has put it.
    - With the table [{a: "X"}] the token [$template.ab], whose
      identifier the table lacks, does not stay as it is.
    - With the table [{a: "X", ab: "Z"}] the same token is not replaced
      by the body of [ab].
    - With the table [{a: "$template.b", b: "Y"}] the reference inside
      the body of [a] is expanded. *)
Theorem snippet_expansion_replaces_text (platform : Platform) :
  findall_template_refs "$template.a/$template.ab" = ["a"; "ab"]
  /\ _replace_placeholders (sorter_of (PList []) (PDict [("a", PStr "X")]))
       "$template.a/$template.ab" [] "scan.pdf" = Ok "X/Xb"
  /\ _replace_placeholders
       (sorter_of (PList []) (PDict [("a", PStr "X"); ("ab", PStr "Z")]))
       "$template.a/$template.ab" [] "scan.pdf" = Ok "X/Xb"
  /\ _replace_placeholders
       (sorter_of (PList []) (PDict [("a", PStr "$template.b"); ("b", PStr "Y")]))
       "$template.a-$template.b" [] "scan.pdf" = Ok "Y-Y".
Proof. repeat split; vm_compute; reflexivity. Qed.

(** * The documented examples, run on the sample environment *)

Example empty_group_is_true :
  @_evaluate_conditions sample_platform (group "AND" []) [] = Ok true
  /\ @_evaluate_conditions sample_platform (group "OR" []) [] = Ok true.
Proof. split; reflexivity. Qed.

(** A dictionary without the key [logic] is a leaf when nested and a
    group at the top of a rule, where it therefore always matches. *)
Example top_level_leaf_matches :
  let test := leaf "postbox_type" "equals" (PStr "A") in
  @_evaluate_condition sample_platform test [("postbox_type", PStr "B")] = Ok false
  /\ @_evaluate_conditions sample_platform test [("postbox_type", PStr "B")] = Ok true.
Proof. split; reflexivity. Qed.

Example invalid_pattern_is_false :
  @_evaluate_condition sample_platform
    (leaf "event_title" "regex" (PStr "[invalid(")) [("event_title", PStr "Apple")]
  = Ok false.
Proof. reflexivity. Qed.

Example chain_with_literal :
  let self := sorter_of (PList []) (PDict []) in
  @_replace_placeholders sample_platform self "{a|b|'X'}"
    [("a", PStr "one"); ("b", PStr "two")] "scan.pdf" = Ok "one"
  /\ @_replace_placeholders sample_platform self "{a|b|'X'}"
       [("a", PStr " "); ("b", PStr "two")] "scan.pdf" = Ok "two"
  /\ @_replace_placeholders sample_platform self "{a|b|'X'}" [] "scan.pdf" = Ok "X"
  /\ @_replace_placeholders sample_platform self "{a|b}.pdf" [] "scan.pdf" = Ok ".pdf".
Proof. repeat split; vm_compute; reflexivity. Qed.

Example original_and_ext :
  @_replace_placeholders sample_platform (sorter_of (PList []) (PDict []))
    "{original}|{ext}" [] "report.final.pdf" = Ok "report.final|.pdf".
Proof. vm_compute. reflexivity. Qed.

Example unknown_snippet_stays :
  @_replace_placeholders sample_platform
    (sorter_of (PList []) (PDict [("standard", PStr "{event_title}.pdf")]))
    "$template.unknown" [] "scan.pdf" = Ok "$template.unknown".
Proof. vm_compute. reflexivity. Qed.

Example snippet_with_placeholders :
  @_replace_placeholders sample_platform
    (sorter_of (PList [])
       (PDict [("with_fallback",
                PStr "{date_time_str} - {event_title|document_title|'Unknown'}.pdf")]))
    "$template.with_fallback"
    [("date_time_str", PStr "2024-03-15"); ("document_title", PStr "Document")]
    "scan.pdf" = Ok "2024-03-15 - Document.pdf".
Proof. vm_compute. reflexivity. Qed.

Example shorthand_list_is_or :
  _convert_when_to_conditions [("postbox_type", PList [PStr "A"; PStr "B"])]
  = group "OR" [equals_leaf "postbox_type" (PStr "A");
                equals_leaf "postbox_type" (PStr "B")]
  /\ _convert_when_to_conditions
       [("postbox_type", PStr "INCOME"); ("event_title", PStr "Interest")]
     = group "AND" [equals_leaf "postbox_type" (PStr "INCOME");
                    equals_leaf "event_title" (PStr "Interest")].
Proof. split; reflexivity. Qed.

Example dividends_end_to_end :
  let conditions :=
    _convert_when_to_conditions [("postbox_type", PList [PStr "A"; PStr "B"])] in
  let dividends := rule "Dividends" conditions "Income/{event_title}" "{event_title}.pdf" in
  @get_new_location sample_platform (sorter_of (PList [dividends]) (PDict []))
    "/inbox/scan.pdf" [("postbox_type", PStr "B"); ("event_title", PStr "Apple")]
  = Ok ("/out/Income/Apple", "Apple.pdf", PStr "Dividends").
Proof. vm_compute. reflexivity. Qed.

Example no_rule_matches :
  let dividends := rule "Dividends" (group "AND" [leaf "postbox_type" "equals" (PStr "B")])
                     "Income" "{original}{ext}" in
  @get_new_location sample_platform (sorter_of (PList [dividends]) (PDict []))
    "/inbox/scan.pdf" [("postbox_type", PStr "T")]
  = Raise (ValueError
      "No matching rule found for file 'scan.pdf' with metadata: {'postbox_type': 'T'}").
Proof. vm_compute. reflexivity. Qed.

(** * Further properties of the condition evaluator *)

(** X1. Evaluation terminates on every value, well formed or not: with
    a budget of twice the nesting depth of the condition plus three
    calls both methods return or raise, and a larger budget changes
    nothing. *)
Theorem evaluation_terminates (platform : Platform) (condition : pyval)
  (metadata : dict) :
  exists verdict group_verdict,
    (forall k, 2 * py_depth condition + 3 <= k ->
       evaluate_condition_fuel k condition metadata = Some verdict)
    /\ (forall k, 2 * py_depth condition + 3 <= k ->
          evaluate_conditions_fuel k condition metadata = Some group_verdict).
Proof.
  exists (_evaluate_condition condition metadata),
         (_evaluate_conditions condition metadata).
  split; intros k Hk.
  - now apply evaluate_condition_fuel_enough.
  - now apply evaluate_conditions_fuel_enough.
Qed.

(** [all] gives the verdict of the first item that is not [True], and
    [True] when there is none. *)
Lemma all_res_true (f : pyval -> res bool) (items : list pyval) :
  all_res f items = Ok true <-> Forall (fun x => f x = Ok true) items.
Proof.
  induction items as [|x items IH]; cbn [all_res].
  - split; [constructor | reflexivity].
  - destruct (f x) as [[|]|e] eqn:Hx; cbn [bind].
    + rewrite IH. split; [now constructor | intros H; now inversion H].
    + split; [discriminate | intros H; inversion H; congruence].
    + split; [discriminate | intros H; inversion H; congruence].
Qed.

Lemma all_res_other (f : pyval -> res bool) (items : list pyval) (v : res bool) :
  v <> Ok true ->
  (all_res f items = v <->
   exists before x after,
     items = before ++ x :: after
     /\ Forall (fun y => f y = Ok true) before /\ f x = v).
Proof.
  intros Hv. induction items as [|x items IH]; cbn [all_res].
  - split; [congruence|]. intros [before [y [after [Heq _]]]]. now destruct before.
  - assert (Hhead : f x <> Ok true ->
              (f x = v <-> exists before y after,
                 x :: items = before ++ y :: after
                 /\ Forall (fun z => f z = Ok true) before /\ f y = v)).
    { intros Hx. split.
      - intros Hfx. exists [], x, items. repeat split; [constructor | assumption].
      - intros [before [y [after [Heq [Hbefore Hy]]]]].
        destruct before as [|b before]; cbn in Heq; injection Heq as <- ->;
          [assumption | inversion Hbefore; subst; contradiction]. }
    destruct (f x) as [[|]|e] eqn:Hx; cbn [bind].
    + rewrite IH. split.
      * intros [before [y [after [-> [Hbefore Hy]]]]].
        exists (x :: before), y, after. repeat split; [constructor|]; assumption.
      * intros [before [y [after [Heq [Hbefore Hy]]]]].
        destruct before as [|b before]; cbn in Heq; injection Heq as <- ->.
        -- congruence.
        -- inversion Hbefore; subst. now exists before, y, after.
    + apply Hhead. discriminate.
    + apply Hhead. discriminate.
Qed.

Lemma any_res_false (f : pyval -> res bool) (items : list pyval) :
  any_res f items = Ok false <-> Forall (fun x => f x = Ok false) items.
Proof.
  induction items as [|x items IH]; cbn [any_res].
  - split; [constructor | reflexivity].
  - destruct (f x) as [[|]|e] eqn:Hx; cbn [bind].
    + split; [discriminate | intros H; inversion H; congruence].
    + rewrite IH. split; [now constructor | intros H; now inversion H].
    + split; [discriminate | intros H; inversion H; congruence].
Qed.

Lemma any_res_other (f : pyval -> res bool) (items : list pyval) (v : res bool) :
  v <> Ok false ->
  (any_res f items = v <->
   exists before x after,
     items = before ++ x :: after
     /\ Forall (fun y => f y = Ok false) before /\ f x = v).
Proof.
  intros Hv. induction items as [|x items IH]; cbn [any_res].
  - split; [congruence|]. intros [before [y [after [Heq _]]]]. now destruct before.
  - assert (Hhead : f x <> Ok false ->
              (f x = v <-> exists before y after,
                 x :: items = before ++ y :: after
                 /\ Forall (fun z => f z = Ok false) before /\ f y = v)).
    { intros Hx. split.
      - intros Hfx. exists [], x, items. repeat split; [constructor | assumption].
      - intros [before [y [after [Heq [Hbefore Hy]]]]].
        destruct before as [|b before]; cbn in Heq; injection Heq as <- ->;
          [assumption | inversion Hbefore; subst; contradiction]. }
    destruct (f x) as [[|]|e] eqn:Hx; cbn [bind].
    + apply Hhead. discriminate.
    + rewrite IH. split.
      * intros [before [y [after [-> [Hbefore Hy]]]]].
        exists (x :: before), y, after. repeat split; [constructor|]; assumption.
      * intros [before [y [after [Heq [Hbefore Hy]]]]].
        destruct before as [|b before]; cbn in Heq; injection Heq as <- ->.
        -- congruence.
        -- inversion Hbefore; subst. now exists before, y, after.
    + apply Hhead. discriminate.
Qed.

Lemma _evaluate_conditions_list (platform : Platform) (d metadata : dict)
  (rules : list pyval) (logic : string) :
  dict_get d "rules" = Some (PList rules) ->
  logic_of (PDict d) = Ok logic ->
  _evaluate_conditions (PDict d) metadata =
  match rules with
  | [] => Ok true
  | _ :: _ =>
      if logic =s? "AND" then all_res (fun r => _evaluate_condition r metadata) rules
      else if logic =s? "OR" then any_res (fun r => _evaluate_condition r metadata) rules
      else Ok false
  end.
Proof.
  intros Hrules Hlogic. rewrite _evaluate_conditions_eq, Hlogic.
  cbn [bind py_get]. rewrite Hrules. now destruct rules.
Qed.

(** X2. An AND group over a list of rules is [True] exactly when every
    rule evaluates to [True]; otherwise its outcome is the outcome of
    the first rule that is not [True] -- [False] or an exception -- and
    the rules after that one are not evaluated, whatever they are. *)
Theorem and_group_verdict (platform : Platform) (d metadata : dict)
  (rules : list pyval) :
  dict_get d "rules" = Some (PList rules) ->
  logic_of (PDict d) = Ok "AND" ->
  let evaluate := fun r => _evaluate_condition r metadata in
  let result := _evaluate_conditions (PDict d) metadata in
  (result = Ok true <-> Forall (fun r => evaluate r = Ok true) rules)
  /\ (forall v, v <> Ok true ->
      (result = v <->
       exists before r after,
         rules = before ++ r :: after
         /\ Forall (fun y => evaluate y = Ok true) before
         /\ evaluate r = v)).
Proof.
  intros Hrules Hlogic evaluate result.
  assert (Hresult : result = all_res evaluate rules).
  { unfold result. rewrite (_evaluate_conditions_list _ _ _ _ _ Hrules Hlogic).
    now destruct rules. }
  rewrite Hresult. split; [apply all_res_true | intros v Hv; now apply all_res_other].
Qed.

(** The second rule is false, so the third, which would raise, is not
    reached. *)
Lemma and_group_verdict_witness :
  let ill_typed := leaf "n" "contains" (PInt 5) in
  let rules := [leaf "n" "equals" (PInt 15); leaf "n" "equals" (PInt 16); ill_typed] in
  @_evaluate_condition sample_platform ill_typed [("n", PInt 15)] = Raise TypeError
  /\ @_evaluate_conditions sample_platform (group "and" rules) [("n", PInt 15)]
     = Ok false.
Proof.
  intros ill_typed rules. split; [reflexivity|].
  destruct (and_group_verdict sample_platform
              [("logic", PStr "and"); ("rules", PList rules)] [("n", PInt 15)] rules
              eq_refl eq_refl) as [_ Hother].
  apply (Hother (Ok false)); [discriminate|].
  exists [leaf "n" "equals" (PInt 15)], (leaf "n" "equals" (PInt 16)), [ill_typed].
  repeat split. repeat constructor.
Defined.

(** X3. An OR group over a non-empty list of rules is [False] exactly
    when every rule evaluates to [False]; otherwise its outcome is the
    outcome of the first rule that is not [False] -- [True] or an
    exception -- and the rules after that one are not evaluated. *)
Theorem or_group_verdict (platform : Platform) (d metadata : dict)
  (first : pyval) (rest : list pyval) :
  dict_get d "rules" = Some (PList (first :: rest)) ->
  logic_of (PDict d) = Ok "OR" ->
  let rules := first :: rest in
  let evaluate := fun r => _evaluate_condition r metadata in
  let result := _evaluate_conditions (PDict d) metadata in
  (result = Ok false <-> Forall (fun r => evaluate r = Ok false) rules)
  /\ (forall v, v <> Ok false ->
      (result = v <->
       exists before r after,
         rules = before ++ r :: after
         /\ Forall (fun y => evaluate y = Ok false) before
         /\ evaluate r = v)).
Proof.
  intros Hrules Hlogic rules evaluate result.
  assert (Hresult : result = any_res evaluate rules).
  { unfold result. now rewrite (_evaluate_conditions_list _ _ _ _ _ Hrules Hlogic). }
  rewrite Hresult. split; [apply any_res_false | intros v Hv; now apply any_res_other].
Qed.

Lemma or_group_verdict_witness :
  let ill_typed := leaf "n" "contains" (PInt 5) in
  let first := leaf "n" "equals" (PInt 15) in
  @_evaluate_conditions sample_platform (group "Or" [first; ill_typed]) [("n", PInt 15)]
  = Ok true.
Proof.
  intros ill_typed first.
  destruct (or_group_verdict sample_platform
              [("logic", PStr "Or"); ("rules", PList [first; ill_typed])]
              [("n", PInt 15)] first [ill_typed] eq_refl eq_refl) as [_ Hother].
  apply (Hother (Ok true)); [discriminate|].
  exists [], first, [ill_typed]. repeat split. constructor.
Defined.

(** X4. A rule without tests matches every record: one that has no
    [conditions] at all, and one whose [conditions] is a dictionary with
    a text [logic] (or none) and no rules in it -- in particular a bare
    leaf given as [conditions], which is read as a group without rules
    and is not tested. *)
Theorem rule_without_tests_matches (platform : Platform) (d metadata : dict) :
  (dict_get d "conditions" = None
   \/ exists c, dict_get d "conditions" = Some (PDict c)
        /\ logic_is_text c = true
        /\ py_truthy (rules_entry c) = false) ->
  rule_matches (PDict d) metadata = Ok true.
Proof.
  unfold rule_matches. cbn [py_get bind].
  intros [-> | [c [-> [Hlogic Hrules]]]].
  - rewrite _evaluate_conditions_eq. reflexivity.
  - rewrite _evaluate_conditions_eq.
    destruct (logic_of_text c Hlogic) as [logic ->]. cbn [bind py_get].
    fold (rules_entry c). now rewrite Hrules.
Qed.

Lemma rule_without_tests_matches_witness :
  let bare := leaf "postbox_type" "equals" (PStr "A") in
  let r := rule "Bare" bare "P" "{original}" in
  @_evaluate_condition sample_platform bare [("postbox_type", PStr "B")] = Ok false
  /\ @rule_matches sample_platform r [("postbox_type", PStr "B")] = Ok true.
Proof.
  split; [reflexivity|].
  apply rule_without_tests_matches. right.
  exists [("field", PStr "postbox_type"); ("operator", PStr "equals"); ("value", PStr "A")].
  repeat split.
Defined.

(** X5. On a field that the record has, [not_equals] is the negation of
    [equals]; on a field that the record lacks both are [False], so
    [not_equals] does not hold of a missing field. *)
Theorem not_equals_on_present_and_missing (platform : Platform)
  (d d' metadata : dict) (field : string) :
  dict_has d "logic" = false -> dict_has d' "logic" = false ->
  entry d "field" = PStr field -> entry d' "field" = PStr field ->
  entry d "operator" = PStr "equals" -> entry d' "operator" = PStr "not_equals" ->
  entry d' "value" = entry d "value" ->
  match dict_get metadata field with
  | Some file_value =>
      _evaluate_condition (PDict d) metadata = Ok (py_eq file_value (entry d "value"))
      /\ _evaluate_condition (PDict d') metadata
         = Ok (negb (py_eq file_value (entry d "value")))
  | None =>
      _evaluate_condition (PDict d) metadata = Ok false
      /\ _evaluate_condition (PDict d') metadata = Ok false
  end.
Proof.
  intros Hleaf Hleaf' Hfield Hfield' Hop Hop' Hvalue.
  rewrite (_evaluate_condition_leaf _ _ _ Hleaf), (_evaluate_condition_leaf _ _ _ Hleaf').
  rewrite !evaluate_leaf_dict, Hfield, Hfield', Hop, Hop', Hvalue.
  cbn [lookup_field bind].
  destruct (dict_get metadata field); split; reflexivity.
Qed.

Lemma not_equals_on_present_and_missing_witness :
  @_evaluate_condition sample_platform
    (leaf "status" "not_equals" (PStr "Paid")) [("postbox_type", PStr "B")] = Ok false.
Proof.
  pose proof (not_equals_on_present_and_missing sample_platform
                [("field", PStr "status"); ("operator", PStr "equals"); ("value", PStr "Paid")]
                [("field", PStr "status"); ("operator", PStr "not_equals"); ("value", PStr "Paid")]
                [("postbox_type", PStr "B")] "status"
                eq_refl eq_refl eq_refl eq_refl eq_refl eq_refl eq_refl) as H.
  cbn in H. exact (proj2 H).
Defined.

(** ** The order of the metadata keywords *)

Lemma lookup_field_same_record (m m' : dict) (field : pyval) :
  same_record m m' -> lookup_field m field = lookup_field m' field.
Proof. intros Hsame. destruct field; cbn; try reflexivity. now rewrite Hsame. Qed.

Lemma evaluate_leaf_same_record (platform : Platform) (m m' : dict) (c : pyval) :
  same_record m m' -> evaluate_leaf c m = evaluate_leaf c m'.
Proof.
  intros Hsame. unfold evaluate_leaf.
  destruct (py_get c "field" PNone) as [field|]; cbn [bind]; [|reflexivity].
  destruct (py_get c "operator" PNone); cbn [bind]; [|reflexivity].
  destruct (py_get c "value" PNone); cbn [bind]; [|reflexivity].
  now rewrite (lookup_field_same_record _ _ field Hsame).
Qed.

Lemma evaluate_fuel_same_record (platform : Platform) (m m' : dict) (n : nat) :
  same_record m m' ->
  forall c,
    evaluate_condition_fuel n c m = evaluate_condition_fuel n c m'
    /\ evaluate_conditions_fuel n c m = evaluate_conditions_fuel n c m'.
Proof.
  intros Hsame. induction n as [|n IH]; intros c; [split; reflexivity|].
  rewrite !evaluate_condition_fuel_S, !evaluate_conditions_fuel_S. split.
  - rewrite (proj2 (IH c)), (evaluate_leaf_same_record _ _ _ c Hsame). reflexivity.
  - destruct (logic_of c); [|reflexivity].
    destruct (py_get c "rules" (PList [])) as [rules|]; [|reflexivity].
    destruct (negb (py_truthy rules)); [reflexivity|].
    destruct (py_iter rules) as [items|]; [|reflexivity].
    rewrite (all_fueled_ext _ (fun rule => evaluate_condition_fuel n rule m') items)
      by (intros x _; apply IH).
    rewrite (any_fueled_ext (fun rule => evaluate_condition_fuel n rule m)
               (fun rule => evaluate_condition_fuel n rule m') items)
      by (intros x _; apply IH).
    reflexivity.
Qed.

Lemma first_resolving_same_record (m m' : dict) (options : list string) :
  same_record m m' -> first_resolving m options = first_resolving m' options.
Proof.
  intros Hsame. induction options as [|opt options IH]; cbn [first_resolving];
    [reflexivity|].
  unfold dict_has. now rewrite Hsame, IH.
Qed.

Lemma sub_placeholders_ext (f g : string -> string) (inside : option string)
  (s : string) :
  (forall content, f content = g content) ->
  sub_placeholders f inside s = sub_placeholders g inside s.
Proof.
  intros Hfg. revert inside.
  induction s as [|c s IH]; intros inside; cbn [sub_placeholders]; [reflexivity|].
  destruct inside as [acc|].
  - destruct (Ascii.eqb c close_brace); [|apply IH].
    destruct (str_is_empty acc); now rewrite IH, ?Hfg.
  - destruct (Ascii.eqb c open_brace); now rewrite IH.
Qed.

(** X6. Rule matching and template resolution read the metadata only
    by looking fields up: two records with the same fields and values
    -- the same keywords in another order, say -- give the same
    verdicts, the same matching rules and the same resolved text. *)
Theorem record_order_irrelevant (platform : Platform) (self : FileSorter)
  (m m' : dict) :
  same_record m m' ->
  (forall c, _evaluate_condition c m = _evaluate_condition c m')
  /\ (forall c, _evaluate_conditions c m = _evaluate_conditions c m')
  /\ _find_all_matching_rules self m = _find_all_matching_rules self m'
  /\ (forall template original_filename,
        _replace_placeholders self template m original_filename
        = _replace_placeholders self template m' original_filename).
Proof.
  intros Hsame.
  assert (Hgroup : forall c, _evaluate_conditions c m = _evaluate_conditions c m').
  { intros c. unfold _evaluate_conditions.
    now rewrite (proj2 (evaluate_fuel_same_record _ _ _ _ Hsame c)). }
  split; [|split; [exact Hgroup|split]].
  - intros c. unfold _evaluate_condition.
    now rewrite (proj1 (evaluate_fuel_same_record _ _ _ _ Hsame c)).
  - unfold _find_all_matching_rules.
    destruct (py_iter (config_rules self)) as [rules|]; cbn [bind]; [|reflexivity].
    induction rules as [|r rules IH]; cbn [collect_matching]; [reflexivity|].
    destruct (py_get r "conditions" (PDict [])) as [c|]; cbn [bind]; [|reflexivity].
    now rewrite Hgroup, IH.
  - intros template original_filename. unfold _replace_placeholders.
    destruct (expand_template_refs (templates self) (findall_template_refs template)
                template) as [expanded|]; cbn [bind]; [|reflexivity].
    f_equal. apply sub_placeholders_ext. intros content.
    unfold replace_with_fallback.
    now rewrite (first_resolving_same_record _ _ _ Hsame).
Qed.

Lemma record_order_irrelevant_witness :
  let m := [("postbox_type", PStr "B"); ("event_title", PStr "Apple")] in
  let m' := [("event_title", PStr "Apple"); ("postbox_type", PStr "B")] in
  let c := group "AND" [leaf "event_title" "starts_with" (PStr "App")] in
  @_evaluate_conditions sample_platform c m
  = @_evaluate_conditions sample_platform c m'.
Proof.
  intros m m' c.
  assert (Hsame : same_record m m').
  { intros k. unfold m, m'. cbn [dict_get].
    destruct ("postbox_type" =s? k) eqn:Hp, ("event_title" =s? k) eqn:He;
      try reflexivity.
    apply String.eqb_eq in Hp, He. subst k. discriminate. }
  destruct (record_order_irrelevant sample_platform (sorter_of (PList []) (PDict []))
              m m' Hsame) as [_ [Hgroup _]].
  exact (Hgroup c).
Defined.

(** * What a compiled shorthand accepts *)

Lemma when_leaves_tests (when : dict) :
  when_leaves when = map test_leaf (when_tests when).
Proof.
  unfold when_tests.
  induction when as [|[field value] when IH]; cbn [when_leaves flat_map fst snd];
    [reflexivity|].
  rewrite map_app, IH. f_equal.
  destruct value; try reflexivity. now rewrite map_map.
Qed.

Lemma test_leaf_verdict (platform : Platform) (metadata : dict)
  (test : string * pyval) :
  _evaluate_condition (test_leaf test) metadata = Ok (test_holds metadata test).
Proof.
  unfold test_leaf, equals_leaf.
  rewrite _evaluate_condition_leaf by reflexivity.
  rewrite evaluate_leaf_dict. unfold test_holds, entry. cbn [dict_get String.eqb].
  cbn. now destruct (dict_get metadata (fst test)).
Qed.

Lemma all_res_tests (platform : Platform) (metadata : dict)
  (tests : list (string * pyval)) :
  all_res (fun r => _evaluate_condition r metadata) (map test_leaf tests)
  = Ok (forallb (test_holds metadata) tests).
Proof.
  induction tests as [|t tests IH]; cbn [map all_res forallb]; [reflexivity|].
  rewrite test_leaf_verdict. cbn [bind].
  now destruct (test_holds metadata t).
Qed.

Lemma any_res_tests (platform : Platform) (metadata : dict)
  (tests : list (string * pyval)) :
  any_res (fun r => _evaluate_condition r metadata) (map test_leaf tests)
  = Ok (existsb (test_holds metadata) tests).
Proof.
  induction tests as [|t tests IH]; cbn [map any_res existsb]; [reflexivity|].
  rewrite test_leaf_verdict. cbn [bind].
  now destruct (test_holds metadata t).
Qed.

Lemma one_field_spec (tests : list (string * pyval)) :
  tests <> [] ->
  (one_field tests = true <-> exists f, Forall (eq f) (map fst tests)).
Proof.
  destruct tests as [|first rest]; [contradiction|]. intros _.
  cbn [one_field map]. rewrite forallb_forall. split.
  - intros Hall. exists (fst first). constructor; [reflexivity|].
    apply Forall_forall. intros f Hf. apply in_map_iff in Hf as [t [<- Ht]].
    symmetry. apply String.eqb_eq. now apply Hall.
  - intros [f Hall] t Ht. inversion Hall as [|? ? <- Hrest]; subst.
    rewrite Forall_forall in Hrest. apply String.eqb_eq.
    symmetry. apply Hrest. now apply in_map.
Qed.

Lemma one_field_pairs (field : string) (values : list pyval) :
  one_field (map (pair field) values) = true.
Proof.
  destruct values as [|v values]; [reflexivity|].
  change (map (pair field) (v :: values))
    with ((field, v) :: map (pair field) values).
  cbn [one_field fst]. apply forallb_forall. intros t Ht.
  apply in_map_iff in Ht as [x [<- _]]. apply String.eqb_refl.
Qed.

Lemma test_leaf_fields (tests : list (string * pyval)) :
  map leaf_field (map test_leaf tests) = map PStr (map fst tests).
Proof. rewrite !map_map. apply map_ext. reflexivity. Qed.

(** Compiling a shorthand mapping and evaluating the result. *)
Lemma convert_then_evaluate (platform : Platform) (when metadata : dict) :
  _evaluate_conditions (_convert_when_to_conditions when) metadata
  = Ok (when_matches when metadata).
Proof.
  unfold _convert_when_to_conditions, when_matches.
  rewrite when_leaves_tests, test_leaf_fields, length_map.
  set (tests := when_tests when).
  assert (Heval : forall logic,
            logic = "AND" \/ logic = "OR" ->
            _evaluate_conditions (group logic (map test_leaf tests)) metadata
            = Ok (match tests with
                  | [] => true
                  | _ => if logic =s? "AND" then forallb (test_holds metadata) tests
                         else existsb (test_holds metadata) tests
                  end)).
  { intros logic Hlogic. unfold group.
    rewrite (_evaluate_conditions_list _ _ _ (map test_leaf tests) logic)
      by (destruct Hlogic as [-> | ->]; reflexivity).
    destruct tests as [|t tests']; [reflexivity|].
    change (map test_leaf (t :: tests')) with (test_leaf t :: map test_leaf tests').
    cbv iota.
    change (test_leaf t :: map test_leaf tests') with (map test_leaf (t :: tests')).
    destruct Hlogic as [-> | ->]; cbn [String.eqb Ascii.eqb Bool.eqb].
    - apply all_res_tests.
    - apply any_res_tests. }
  destruct (List.length tests =? 1) eqn:Hone.
  - rewrite Heval by now left. apply Nat.eqb_eq in Hone.
    destruct tests as [|t [|t' tests']]; try discriminate. reflexivity.
  - apply Nat.eqb_neq in Hone.
    destruct (py_set_size (map PStr (map fst tests)) =? 1) eqn:Hset.
    + rewrite Heval by now right.
      apply Nat.eqb_eq, py_set_size_one in Hset as [Hne Hall].
      assert (Htests : tests <> []) by (intros Heq; rewrite Heq in Hne; now apply Hne).
      rewrite (proj2 (one_field_spec tests Htests) Hall), andb_true_r.
      destruct tests as [|t [|t' tests']]; [contradiction | contradiction |].
      reflexivity.
    + rewrite Heval by now left.
      destruct tests as [|t tests'] eqn:Htests; [reflexivity|].
      assert (Hne : tests <> []) by (rewrite Htests; discriminate).
      rewrite <- Htests in *.
      destruct (one_field tests) eqn:Hfield.
      * exfalso. apply Nat.eqb_neq in Hset. apply Hset, py_set_size_one.
        split; [|now apply one_field_spec].
        rewrite Htests. discriminate.
      * rewrite andb_false_r. rewrite Htests. reflexivity.
Qed.

(** X7. Evaluating the conditions compiled from a shorthand mapping
    never raises, whatever the values of the mapping and the record are.
    The verdict is: with two or more tests all on one field, some test
    holds; otherwise every test holds (an empty mapping accepts every
    record).  A test holds when the record has the field with an equal
    value. *)
Theorem compiled_shorthand_verdict (platform : Platform) (when metadata : dict) :
  _evaluate_conditions (_convert_when_to_conditions when) metadata
  = Ok (when_matches when metadata)
  /\ (when = [] -> when_matches when metadata = true)
  /\ (forall field values,
        when = [(field, PList values)] ->
        when_matches when metadata
        = match values with
          | [] => true
          | _ => existsb (fun v => test_holds metadata (field, v)) values
          end).
Proof.
  split; [apply convert_then_evaluate|]. split.
  - intros ->. reflexivity.
  - intros field values ->. unfold when_matches, when_tests.
    cbn [flat_map fst snd]. rewrite app_nil_r.
    destruct values as [|v [|v' values]]; [reflexivity | cbn; now rewrite orb_false_r, andb_true_r |].
    rewrite one_field_pairs, andb_true_r, length_map.
    cbn [List.length Nat.leb]. unfold test_holds.
    induction (v :: v' :: values) as [|x xs IH]; cbn [map existsb]; [reflexivity|].
    now rewrite IH.
Qed.

Lemma in_when_tests_list (when : dict) (field : string) (values : list pyval)
  (v : pyval) :
  In (field, PList values) when -> In v values -> In (field, v) (when_tests when).
Proof.
  intros Hentry Hv. unfold when_tests. apply in_flat_map.
  exists (field, PList values). split; [assumption|]. cbn [fst snd]. now apply in_map.
Qed.

Lemma in_when_tests_some (when : dict) (field : string) (value : pyval) :
  In (field, value) when -> value <> PList [] ->
  exists v, In (field, v) (when_tests when).
Proof.
  intros Hentry Hne.
  destruct value as [| | | |[|v vs]|] eqn:Hvalue;
    try (exists value; unfold when_tests; apply in_flat_map;
         exists (field, value); subst value; split; [assumption | now left]).
  - contradiction.
  - exists v. apply (in_when_tests_list when field (v :: vs)); [assumption | now left].
Qed.

Lemma one_field_agree (tests : list (string * pyval)) (t t' : string * pyval) :
  one_field tests = true -> In t tests -> In t' tests -> fst t = fst t'.
Proof.
  intros Hone Ht Ht'.
  assert (Hne : tests <> []) by (intros ->; contradiction).
  apply (one_field_spec tests Hne) in Hone as [f Hall].
  rewrite Forall_forall in Hall.
  rewrite <- (Hall (fst t)) by now apply in_map.
  now rewrite <- (Hall (fst t')) by now apply in_map.
Qed.

(** X8. With tests on more than one field every test must hold, also
    the tests that come from one list: a mapping that lists two
    different texts for a field and has an entry for another field
    accepts no record at all. *)
Theorem shorthand_list_beside_other_field (platform : Platform)
  (when metadata : dict) (field other : string) (values : list pyval)
  (a b : string) (value : pyval) :
  In (field, PList values) when ->
  In (PStr a) values -> In (PStr b) values -> a <> b ->
  In (other, value) when -> other <> field -> value <> PList [] ->
  _evaluate_conditions (_convert_when_to_conditions when) metadata = Ok false.
Proof.
  intros Hentry Ha Hb Hab Hother Hne Hvalue.
  rewrite convert_then_evaluate. f_equal. unfold when_matches.
  pose proof (in_when_tests_list _ _ _ _ Hentry Ha) as Hta.
  pose proof (in_when_tests_list _ _ _ _ Hentry Hb) as Htb.
  destruct (in_when_tests_some _ _ _ Hother Hvalue) as [v Htv].
  destruct (one_field (when_tests when)) eqn:Hone.
  { exfalso. apply Hne. exact (one_field_agree _ _ _ Hone Htv Hta). }
  rewrite andb_false_r.
  destruct (forallb (test_holds metadata) (when_tests when)) eqn:Hall; [|reflexivity].
  exfalso. rewrite forallb_forall in Hall.
  pose proof (Hall _ Hta) as Ha'. pose proof (Hall _ Htb) as Hb'.
  unfold test_holds in Ha', Hb'. cbn [fst snd] in Ha', Hb'.
  destruct (dict_get metadata field) as [file_value|]; [|discriminate].
  apply py_eq_str_name in Ha', Hb'. congruence.
Qed.

Lemma shorthand_list_beside_other_field_witness :
  let when := [("postbox_type", PList [PStr "A"; PStr "B"]); ("event_title", PStr "Apple")] in
  @_evaluate_conditions sample_platform (_convert_when_to_conditions when)
    [("postbox_type", PStr "B"); ("event_title", PStr "Apple")] = Ok false.
Proof.
  intros when.
  apply (shorthand_list_beside_other_field sample_platform when _
           "postbox_type" "event_title" [PStr "A"; PStr "B"] "A" "B" (PStr "Apple")).
  - now left.
  - now left.
  - right. now left.
  - discriminate.
  - right. now left.
  - discriminate.
  - discriminate.
Defined.

(** * Further properties of the template resolver *)

Lemma str_has_char_app (c : ascii) (a b : string) :
  str_has_char c (a +++ b) = str_has_char c a || str_has_char c b.
Proof.
  induction a as [|x a IH]; cbn [String.append str_has_char]; [reflexivity|].
  now rewrite IH, orb_assoc.
Qed.

Lemma prefix_first_char (p s : string) (a c : ascii) :
  String.prefix (String a p) (String c s) = true -> c = a.
Proof.
  rewrite prefix_cons. intros H. apply andb_true_iff in H as [H _].
  symmetry. now apply Ascii.eqb_eq.
Qed.

Lemma findall_no_dollar (s : string) :
  str_has_char dollar s = false -> findall_template_refs s = [].
Proof.
  induction s as [|c s IH]; cbn [str_has_char findall_template_refs]; [reflexivity|].
  intros Hno. apply orb_false_iff in Hno as [Hc Hs].
  destruct (String.prefix template_prefix (String c s)) eqn:Hprefix; [|now apply IH].
  apply prefix_first_char in Hprefix. subst c. discriminate.
Qed.

Lemma sub_placeholders_no_open (repl : string -> string) (s : string) :
  str_has_char open_brace s = false -> sub_placeholders repl None s = s.
Proof.
  intros Hno. rewrite <- (append_nil_r s) at 1.
  rewrite (sub_placeholders_outside _ _ _ Hno). cbn [sub_placeholders].
  apply append_nil_r.
Qed.

Lemma sub_placeholders_no_close (repl : string -> string) (s : string) :
  str_has_char close_brace s = false ->
  sub_placeholders repl None s = s
  /\ forall acc, sub_placeholders repl (Some acc) s = String open_brace (acc +++ s).
Proof.
  induction s as [|c s IH]; cbn [str_has_char sub_placeholders].
  - intros _. split; [reflexivity | intros acc; now rewrite append_nil_r].
  - intros Hno. apply orb_false_iff in Hno as [Hc Hs].
    destruct (IH Hs) as [IHnone IHsome]. split.
    + destruct (Ascii.eqb c open_brace) eqn:Hopen.
      * apply Ascii.eqb_eq in Hopen as ->. now rewrite IHsome.
      * now rewrite IHnone.
    + intros acc. rewrite Hc, IHsome, append_assoc. reflexivity.
Qed.

(** X9. Text that holds no dollar sign and no complete brace pair (no
    opening brace, or no closing brace) is returned as it is, whatever
    the template table, the metadata and the file name are. *)
Theorem plain_text_unchanged (platform : Platform) (self : FileSorter)
  (template : string) (metadata : dict) (original_filename : string) :
  str_has_char dollar template = false ->
  str_has_char open_brace template = false
  \/ str_has_char close_brace template = false ->
  _replace_placeholders self template metadata original_filename = Ok template.
Proof.
  intros Hdollar Hbrace. unfold _replace_placeholders.
  rewrite (findall_no_dollar _ Hdollar). cbn [expand_template_refs bind].
  f_equal. destruct Hbrace as [Hopen | Hclose].
  - now apply sub_placeholders_no_open.
  - now apply sub_placeholders_no_close.
Qed.

Lemma plain_text_unchanged_witness :
  @_replace_placeholders sample_platform (sorter_of (PList []) PNone)
    "Income/2024 {draft" [] "scan.pdf" = Ok "Income/2024 {draft".
Proof.
  apply plain_text_unchanged; [reflexivity | right; reflexivity].
Defined.

Lemma sub_placeholders_render (repl : string -> string) (pieces : list piece) :
  forallb piece_ok pieces = true ->
  sub_placeholders repl None (render pieces)
  = (fix values (ps : list piece) : string :=
       match ps with
       | [] => EmptyString
       | Text text :: rest => text +++ values rest
       | Token content :: rest => repl content +++ values rest
       end) pieces.
Proof.
  induction pieces as [|p pieces IH]; cbn [forallb render]; [reflexivity|].
  intros Hok. apply andb_true_iff in Hok as [Hp Hok]. specialize (IH Hok).
  destruct p as [text | content]; cbn [piece_ok render_piece] in *.
  - apply negb_true_iff in Hp.
    now rewrite (sub_placeholders_outside _ _ _ Hp), IH.
  - apply andb_true_iff in Hp as [Hne Hclose].
    apply negb_true_iff in Hne, Hclose.
    cbn [String.append]. rewrite append_assoc. cbn [String.append].
    assert (Hcontent : content <> EmptyString) by (intros ->; discriminate).
    pose proof (sub_placeholders_token repl EmptyString content (render pieces)
                  eq_refl Hclose Hcontent) as Htoken.
    cbn [String.append] in Htoken. now rewrite Htoken, IH.
Qed.

(** X10. Tokens are resolved one by one and the text between them is
    copied: for a template made of plain text (without an opening brace)
    and tokens (non-empty content without a closing brace) whose snippet
    references, if any, are unknown to the table, the result is the
    concatenation of the texts and of the values of the tokens.  A value
    is inserted as it is, braces included, and not resolved again. *)
Theorem template_resolves_piecewise (platform : Platform) (self : FileSorter)
  (pieces : list piece) (metadata : dict) (original_filename : string) :
  forallb piece_ok pieces = true ->
  (forall name, In name (findall_template_refs (render pieces)) ->
     py_in (PStr name) (templates self) = Ok false) ->
  _replace_placeholders self (render pieces) metadata original_filename
  = Ok (pieces_value metadata original_filename pieces).
Proof.
  intros Hok Hunknown. unfold _replace_placeholders.
  rewrite (expand_template_refs_unknown _ _ _ Hunknown). cbn [bind]. f_equal.
  rewrite (sub_placeholders_render _ _ Hok).
  clear. induction pieces as [|[text | content] pieces IH]; cbn [pieces_value piece_value];
    [reflexivity | now rewrite IH | now rewrite IH].
Qed.

(** The value of [a] holds a token of its own, which stays. *)
Lemma template_resolves_piecewise_witness :
  @_replace_placeholders sample_platform (sorter_of (PList []) (PDict []))
    "Income/{a}-{b|'none'}.pdf" [("a", PStr "{b}")] "scan.pdf"
  = Ok "Income/{b}-none.pdf".
Proof.
  apply (template_resolves_piecewise sample_platform (sorter_of (PList []) (PDict []))
           [Text "Income/"; Token "a"; Text "-"; Token "b|'none'"; Text ".pdf"]).
  - reflexivity.
  - intros name [].
Defined.

Lemma is_word_not_dollar (c : ascii) : is_word c = true -> Ascii.eqb c dollar = false.
Proof.
  intros Hword. destruct (Ascii.eqb c dollar) eqn:Hc; [|reflexivity].
  apply Ascii.eqb_eq in Hc. subst c. discriminate.
Qed.

Lemma word_has_no_dollar (name : string) :
  all_chars is_word name = true -> str_has_char dollar name = false.
Proof.
  induction name as [|c name IH]; cbn [all_chars str_has_char]; [reflexivity|].
  intros H. apply andb_true_iff in H as [Hc Hname].
  now rewrite (is_word_not_dollar _ Hc), IH.
Qed.

Lemma take_word_app (name after : string) :
  all_chars is_word name = true -> take_word after = EmptyString ->
  take_word (name +++ after) = name.
Proof.
  intros Hname Hafter. induction name as [|c name IH]; cbn [String.append];
    [assumption|].
  cbn [all_chars] in Hname. apply andb_true_iff in Hname as [Hc Hname].
  cbn [take_word]. now rewrite Hc, IH.
Qed.

Lemma findall_single_ref (before name after : string) :
  str_has_char dollar before = false ->
  str_has_char dollar after = false ->
  name <> EmptyString ->
  all_chars is_word name = true ->
  take_word after = EmptyString ->
  findall_template_refs (before +++ template_prefix +++ name +++ after) = [name].
Proof.
  intros Hbefore Hafter Hne Hname Htake.
  induction before as [|c before IH].
  - cbn [String.append]. unfold template_prefix at 1.
    cbn [String.append findall_template_refs].
    change (String.prefix template_prefix
              (String "$" (String "t" (String "e" (String "m" (String "p"
                (String "l" (String "a" (String "t" (String "e" (String "."
                  (name +++ after))))))))))))
      with (str_startswith (template_prefix +++ name +++ after) template_prefix).
    rewrite (proj2 (str_startswith_spec _ _)) by now exists (name +++ after).
    cbn [str_drop]. rewrite (take_word_app _ _ Hname Htake).
    rewrite findall_no_dollar.
    + destruct name; [contradiction | reflexivity].
    + change (str_has_char dollar ("template." +++ name +++ after) = false).
      rewrite !str_has_char_app, (word_has_no_dollar _ Hname), Hafter. reflexivity.
  - cbn [str_has_char] in Hbefore. apply orb_false_iff in Hbefore as [Hc Hbefore].
    cbn [String.append findall_template_refs].
    destruct (String.prefix template_prefix
                (String c (before +++ template_prefix +++ name +++ after))) eqn:Hprefix.
    + apply prefix_first_char in Hprefix. subst c. discriminate.
    + now apply IH.
Qed.

Lemma str_replace_scan_skip (old new x y : string) :
  str_replace_scan old new (String.length x) (x +++ y)
  = str_replace_scan old new 0 y.
Proof.
  induction x as [|c x IH]; cbn [String.length String.append]; [reflexivity|].
  cbn [str_replace_scan]. exact IH.
Qed.

Lemma str_replace_scan_copy (rest new s : string) :
  str_has_char dollar s = false ->
  str_replace_scan (String dollar rest) new 0 s = s.
Proof.
  induction s as [|c s IH]; cbn [str_has_char str_replace_scan]; [reflexivity|].
  intros Hno. apply orb_false_iff in Hno as [Hc Hs].
  destruct (String.prefix (String dollar rest) (String c s)) eqn:Hprefix.
  - apply prefix_first_char in Hprefix. subst c. discriminate.
  - now rewrite IH.
Qed.

(** One occurrence, and no dollar sign around it. *)
Lemma str_replace_single (before rest after new : string) :
  str_has_char dollar before = false ->
  str_has_char dollar after = false ->
  str_replace (before +++ String dollar rest +++ after) (String dollar rest) new
  = before +++ new +++ after.
Proof.
  intros Hbefore Hafter. unfold str_replace. cbn [str_is_empty String.append].
  induction before as [|c before IH].
  - cbn [String.append str_replace_scan].
    change (String.prefix (String dollar rest) (String dollar (rest +++ after)))
      with (str_startswith (String dollar rest +++ after) (String dollar rest)).
    rewrite (proj2 (str_startswith_spec _ _)) by now exists after.
    cbn [String.length].
    replace (S (String.length rest) - 1) with (String.length rest) by lia.
    rewrite str_replace_scan_skip.
    now rewrite (str_replace_scan_copy _ _ _ Hafter).
  - cbn [str_has_char] in Hbefore. apply orb_false_iff in Hbefore as [Hc Hbefore].
    cbn [String.append str_replace_scan].
    destruct (String.prefix (String dollar rest)
                (String c (before +++ String dollar (rest +++ after)))) eqn:Hprefix.
    + apply prefix_first_char in Hprefix. subst c. discriminate.
    + now rewrite (IH Hbefore).
Qed.

(** X11. A template with one snippet reference and no other dollar
    sign, whose name the table holds with a text body, resolves like the
    template with the body in place of the reference: the placeholders
    of the body are resolved with the same metadata, and a reference
    inside the body stays as text. *)
Theorem single_snippet_reference (platform : Platform) (self : FileSorter)
  (table : dict) (before name after body : string) (metadata : dict)
  (original_filename : string) :
  templates self = PDict table ->
  dict_get table name = Some (PStr body) ->
  str_has_char dollar before = false ->
  str_has_char dollar after = false ->
  name <> EmptyString ->
  all_chars is_word name = true ->
  take_word after = EmptyString ->
  _replace_placeholders self (before +++ template_prefix +++ name +++ after)
    metadata original_filename
  = Ok (sub_placeholders (replace_with_fallback metadata original_filename) None
          (before +++ body +++ after)).
Proof.
  intros Htable Hbody Hbefore Hafter Hne Hname Htake.
  unfold _replace_placeholders.
  rewrite (findall_single_ref _ _ _ Hbefore Hafter Hne Hname Htake), Htable.
  cbn [expand_template_refs py_in bind py_subscript]. unfold dict_has.
  rewrite Hbody. cbn [bind]. do 2 f_equal.
  rewrite <- (str_replace_single before ("template." +++ name) after body Hbefore Hafter).
  unfold template_prefix, dollar. cbn [String.append]. reflexivity.
Qed.

Lemma single_snippet_reference_witness :
  @_replace_placeholders sample_platform
    (sorter_of (PList [])
       (PDict [("standard", PStr "{event_title} $template.other.pdf")]))
    "Income/$template.standard" [("event_title", PStr "Apple")] "scan.pdf"
  = Ok "Income/Apple $template.other.pdf".
Proof.
  assert (Hname : "standard" <> EmptyString) by discriminate.
  exact (single_snippet_reference sample_platform
           (sorter_of (PList [])
              (PDict [("standard", PStr "{event_title} $template.other.pdf")]))
           [("standard", PStr "{event_title} $template.other.pdf")]
           "Income/" "standard" EmptyString "{event_title} $template.other.pdf"
           [("event_title", PStr "Apple")] "scan.pdf"
           eq_refl eq_refl eq_refl eq_refl Hname eq_refl eq_refl).
Defined.

(** * Further properties of the planner *)

Lemma default_templates_resolve (platform : Platform) (self : FileSorter)
  (metadata : dict) (original_filename : string) :
  _replace_placeholders self "." metadata original_filename = Ok "."
  /\ _replace_placeholders self "{original}" metadata original_filename
     = Ok (path_stem original_filename).
Proof.
  unfold _replace_placeholders. split.
  - reflexivity.
  - cbn [findall_template_refs String.prefix template_prefix expand_template_refs bind].
    cbn. now rewrite append_nil_r.
Qed.

(** X12. A rule that is the only match and gives neither [path] nor
    [filename] sends the file to the output directory itself under the
    stem of its name: the default file name template is [{original}], so
    the extension is dropped.  The rule's name, or [Unnamed], comes
    back with it. *)
Theorem rule_defaults_drop_extension (platform : Platform) (self : FileSorter)
  (original_filepath : string) (metadata d : dict) :
  os_path_exists original_filepath = true ->
  let original_filename := os_path_basename original_filepath in
  _find_all_matching_rules self (file_metadata original_filename metadata)
  = Ok [PDict d] ->
  dict_get d "path" = None ->
  dict_get d "filename" = None ->
  get_new_location self original_filepath metadata
  = Ok (sanitize_filepath (os_path_join (base_output_dir self) "."),
        sanitize_filename (path_stem original_filename),
        match dict_get d "name" with Some name => name | None => PStr "Unnamed" end).
Proof.
  intros Hexists original_filename Hfind Hpath Hfilename.
  unfold get_new_location. rewrite Hexists. cbv zeta. cbn [negb].
  unfold plan_location. fold original_filename. rewrite Hfind. cbn [bind].
  unfold resolve_location. cbn [py_get bind]. rewrite Hpath, Hfilename.
  cbn [as_template bind].
  destruct (default_templates_resolve platform self
              (file_metadata original_filename metadata) original_filename)
    as [-> ->].
  reflexivity.
Qed.

Lemma rule_defaults_drop_extension_witness :
  @get_new_location sample_platform
    (sorter_of (PList [PDict [("name", PStr "Everything")]]) (PDict []))
    "/inbox/report.final.pdf" []
  = Ok ("/out/.", "report.final", PStr "Everything").
Proof.
  exact (rule_defaults_drop_extension sample_platform
           (sorter_of (PList [PDict [("name", PStr "Everything")]]) (PDict []))
           "/inbox/report.final.pdf" [] [("name", PStr "Everything")]
           eq_refl eq_refl eq_refl eq_refl).
Defined.

(** X13. The prepared record holds every keyword of the caller with
    its value, and besides them only [filename]. *)
Theorem caller_fields_kept (original_filename : string) (metadata : dict) :
  NoDup (map fst metadata) ->
  forall k,
    dict_get (file_metadata original_filename metadata) k
    = match dict_get metadata k with
      | Some v => Some v
      | None => if k =s? "filename" then Some (PStr original_filename) else None
      end.
Proof.
  intros Hnodup k. unfold file_metadata.
  destruct (dict_get metadata k) as [v|] eqn:Hk.
  - now apply dict_update_present.
  - rewrite (dict_update_absent _ _ _ Hk). cbn [dict_get].
    now rewrite String.eqb_sym.
Qed.

Lemma caller_fields_kept_witness :
  dict_get (file_metadata "scan.pdf"
              [("postbox_type", PStr "B"); ("event_title", PStr "Apple")])
    "event_title" = Some (PStr "Apple").
Proof.
  apply (caller_fields_kept "scan.pdf"
           [("postbox_type", PStr "B"); ("event_title", PStr "Apple")]).
  cbn. repeat constructor; cbn; intuition discriminate.
Defined.

(** * Loading the configuration *)

Lemma dict_get_del {V : Type} (d : list (string * V)) (k k' : string) :
  dict_get (dict_del d k) k' = if k =s? k' then None else dict_get d k'.
Proof.
  unfold dict_del.
  induction d as [|[k0 v0] d IH]; cbn [filter dict_get fst].
  - now destruct (k =s? k').
  - destruct (k0 =s? k) eqn:Hk0; cbn [negb].
    + apply String.eqb_eq in Hk0 as ->. rewrite IH.
      now destruct (k =s? k').
    + cbn [dict_get]. rewrite IH.
      destruct (k0 =s? k') eqn:Hk0'; [|reflexivity].
      apply String.eqb_eq in Hk0' as ->.
      rewrite String.eqb_sym. now rewrite Hk0.
Qed.

Lemma dict_get_set {V : Type} (d : list (string * V)) (k k' : string) (v : V) :
  dict_get (dict_set d k v) k' = if k =s? k' then Some v else dict_get d k'.
Proof.
  destruct (k =s? k') eqn:Hk.
  - apply String.eqb_eq in Hk as <-. apply dict_get_set_same.
  - apply dict_get_set_other. now apply String.eqb_neq.
Qed.

Lemma dict_set_twice {V : Type} (d : list (string * V)) (k : string) (v : V) :
  dict_set (dict_set d k v) k v = dict_set d k v.
Proof.
  induction d as [|[k0 v0] d IH]; cbn [dict_set].
  - now rewrite String.eqb_refl.
  - destruct (k0 =s? k) eqn:Hk; cbn [dict_set]; rewrite Hk; [reflexivity | now rewrite IH].
Qed.

(** A rule with a shorthand mapping and no conditions. *)
Lemma load_rule_when (d w : dict) :
  dict_get d "when" = Some (PDict w) ->
  dict_get d "conditions" = None ->
  load_rule (PDict d)
  = Ok (PDict (dict_del (dict_set d "conditions" (_convert_when_to_conditions w))
                 "when")).
Proof.
  intros Hwhen Hconditions. unfold load_rule. cbn [py_in bind py_subscript].
  unfold dict_has. rewrite Hwhen, Hconditions. reflexivity.
Qed.

Lemma loaded_when_lookup (d w : dict) (k : string) :
  dict_get (dict_del (dict_set d "conditions" (_convert_when_to_conditions w)) "when") k
  = if k =s? "when" then None
    else if k =s? "conditions" then Some (_convert_when_to_conditions w)
    else dict_get d k.
Proof.
  rewrite dict_get_del, dict_get_set.
  now rewrite (String.eqb_sym "when" k), (String.eqb_sym "conditions" k).
Qed.

(** X14. What loading does to a rule given as a dictionary.  With
    [when] and without [conditions]: if [when] is a mapping the rule
    loses [when], gets the compiled conditions under [conditions] and
    keeps every other key; if [when] is anything else loading raises.
    In every other case -- no [when], or [conditions] present beside
    it -- the rule stays as it is, and a [when] beside [conditions] is
    never read. *)
Theorem load_rule_cases (d : dict) :
  match dict_get d "when", dict_get d "conditions" with
  | Some (PDict w), None =>
      exists loaded,
        load_rule (PDict d) = Ok (PDict loaded)
        /\ forall k,
             dict_get loaded k
             = if k =s? "when" then None
               else if k =s? "conditions" then Some (_convert_when_to_conditions w)
               else dict_get d k
  | Some _, None => load_rule (PDict d) = Raise AttributeError
  | _, _ => load_rule (PDict d) = Ok (PDict d)
  end.
Proof.
  destruct (dict_get d "when") as [when|] eqn:Hwhen;
    destruct (dict_get d "conditions") as [conditions|] eqn:Hconditions;
    try destruct when as [| | | | |w];
    try (unfold load_rule; cbn [py_in bind py_subscript]; unfold dict_has;
         rewrite Hwhen, ?Hconditions; reflexivity).
  exists (dict_del (dict_set d "conditions" (_convert_when_to_conditions w)) "when").
  split; [apply load_rule_when; assumption | apply loaded_when_lookup].
Qed.

Lemma load_rule_again (rule loaded : pyval) :
  load_rule rule = Ok loaded -> load_rule loaded = Ok loaded.
Proof.
  unfold load_rule at 1.
  destruct (py_in (PStr "when") rule) as [[|]|] eqn:Hwhen; cbn [bind];
    try discriminate.
  2:{ intros [= <-]. unfold load_rule. now rewrite Hwhen. }
  destruct (py_in (PStr "conditions") rule) as [[|]|] eqn:Hconditions; cbn [bind negb];
    try discriminate.
  { intros [= <-]. unfold load_rule. now rewrite Hwhen, Hconditions. }
  destruct (py_subscript rule "when") as [when|]; cbn [bind]; [|discriminate].
  destruct when, rule; try discriminate.
  intros [= <-]. unfold load_rule. cbn [py_in bind]. unfold dict_has.
  now rewrite loaded_when_lookup.
Qed.

Lemma load_rule_items_again (rules loaded : list pyval) :
  load_rule_items rules = Ok loaded -> load_rule_items loaded = Ok loaded.
Proof.
  revert loaded. induction rules as [|r rules IH]; intros loaded; cbn [load_rule_items].
  - intros [= <-]. reflexivity.
  - destruct (load_rule r) as [r'|] eqn:Hr; cbn [bind]; [|discriminate].
    destruct (load_rule_items rules) as [rules'|]; cbn [bind]; [|discriminate].
    intros [= <-]. cbn [load_rule_items].
    now rewrite (load_rule_again _ _ Hr), (IH _ eq_refl).
Qed.

Lemma load_rules_again (rules loaded : pyval) :
  load_rules rules = Ok loaded -> load_rules loaded = Ok loaded.
Proof.
  destruct rules as [| | | |l|]; cbn [load_rules py_iter bind]; try discriminate.
  - destruct (load_rule_items (str_chars s)) eqn:Hitems; cbn [bind]; [|discriminate].
    intros [= <-]. cbn [load_rules py_iter bind]. now rewrite Hitems.
  - destruct (load_rule_items l) as [l'|] eqn:Hitems; cbn [bind]; [|discriminate].
    intros [= <-]. cbn [load_rules]. now rewrite (load_rule_items_again _ _ Hitems).
  - destruct (load_rule_items (map (fun kv => PStr (fst kv)) d)) eqn:Hitems;
      cbn [bind]; [|discriminate].
    intros [= <-]. cbn [load_rules py_iter bind]. now rewrite Hitems.
Qed.

(** X15. Loading is idempotent: a configuration that has been loaded
    loads to itself, with the same template table. *)
Theorem load_config_idempotent (parsed : pyval) (loaded : dict) (table : pyval) :
  _load_config parsed = Ok (loaded, table) ->
  _load_config (PDict loaded) = Ok (loaded, table).
Proof.
  destruct parsed as [| | | | |d]; cbn [_load_config py_get bind]; try discriminate.
  unfold dict_has. destruct (dict_get d "rules") as [rules|] eqn:Hrules.
  - cbn [py_subscript bind]. rewrite Hrules. cbn [bind].
    destruct (load_rules rules) as [rules'|] eqn:Hload; cbn [bind]; [|discriminate].
    intros [= <- <-]. unfold dict_has.
    rewrite dict_get_set_same. cbn [py_subscript bind].
    rewrite (load_rules_again _ _ Hload). cbn [bind].
    rewrite dict_set_twice, dict_get_set_other by discriminate. reflexivity.
  - intros [= <- <-]. unfold dict_has. now rewrite Hrules.
Qed.

Lemma load_config_idempotent_witness :
  let parsed :=
    PDict [("rules",
            PList [PDict [("name", PStr "Dividends");
                          ("when", PDict [("postbox_type", PList [PStr "A"; PStr "B"])]);
                          ("path", PStr "Income")]])] in
  exists loaded table,
    _load_config parsed = Ok (loaded, table)
    /\ _load_config (PDict loaded) = Ok (loaded, table).
Proof.
  intros parsed. eexists. eexists.
  assert (Hload : _load_config parsed = Ok (_, _)) by reflexivity.
  split; [exact Hload | exact (load_config_idempotent _ _ _ Hload)].
Defined.

(** X16. A rule written with a shorthand mapping matches, once loaded,
    exactly the records that the mapping accepts; evaluating it never
    raises. *)
Theorem loaded_when_rule_matches (platform : Platform) (d w metadata : dict) :
  dict_get d "when" = Some (PDict w) ->
  dict_get d "conditions" = None ->
  exists loaded,
    load_rule (PDict d) = Ok loaded
    /\ rule_matches loaded metadata = Ok (when_matches w metadata).
Proof.
  intros Hwhen Hconditions.
  exists (PDict (dict_del (dict_set d "conditions" (_convert_when_to_conditions w))
                   "when")).
  split; [apply load_rule_when; assumption|].
  unfold rule_matches. cbn [py_get bind]. rewrite loaded_when_lookup.
  cbn [String.eqb Ascii.eqb Bool.eqb]. apply convert_then_evaluate.
Qed.

Lemma loaded_when_rule_matches_witness :
  let d := [("name", PStr "Dividends");
            ("when", PDict [("postbox_type", PList [PStr "A"; PStr "B"])]);
            ("path", PStr "Income")] in
  exists loaded,
    load_rule (PDict d) = Ok loaded
    /\ @rule_matches sample_platform loaded [("postbox_type", PStr "B")] = Ok true.
Proof.
  intros d.
  exact (loaded_when_rule_matches sample_platform d
           [("postbox_type", PList [PStr "A"; PStr "B"])]
           [("postbox_type", PStr "B")] eq_refl eq_refl).
Defined.

Lemma load_rule_keeps_keys (rule loaded : pyval) (k : string) (default : pyval) :
  load_rule rule = Ok loaded ->
  k <> "when" -> k <> "conditions" ->
  py_get loaded k default = py_get rule k default.
Proof.
  intros Hload Hwhen Hconditions. unfold load_rule in Hload.
  destruct (py_in (PStr "when") rule) as [[|]|]; cbn [bind] in Hload;
    try discriminate; [|now injection Hload as <-].
  destruct (py_in (PStr "conditions") rule) as [[|]|]; cbn [bind negb] in Hload;
    try discriminate; [now injection Hload as <-|].
  destruct (py_subscript rule "when") as [when|]; cbn [bind] in Hload; [|discriminate].
  destruct when, rule; try discriminate.
  injection Hload as <-. cbn [py_get]. rewrite loaded_when_lookup.
  apply String.eqb_neq in Hwhen, Hconditions. now rewrite Hwhen, Hconditions.
Qed.

(** X17. Loading keeps the shape of the configuration: the template
    table is the [templates] entry (an empty dictionary when there is
    none), every top-level key but [rules] keeps its value, and a list
    of rules stays a list of as many rules in the same order, each with
    the keys it had -- [name], [path], [filename] and any other -- apart
    from [when] and [conditions]. *)
Theorem load_config_keeps_shape (d loaded : dict) (table : pyval) :
  _load_config (PDict d) = Ok (loaded, table) ->
  table = match dict_get d "templates" with Some t => t | None => PDict [] end
  /\ (forall k, k <> "rules" -> dict_get loaded k = dict_get d k)
  /\ (forall rules, dict_get d "rules" = Some (PList rules) ->
      exists loaded_rules,
        dict_get loaded "rules" = Some (PList loaded_rules)
        /\ Forall2 (fun r r' =>
                      forall k default, k <> "when" -> k <> "conditions" ->
                        py_get r' k default = py_get r k default)
             rules loaded_rules).
Proof.
  cbn [_load_config py_get bind]. unfold dict_has.
  destruct (dict_get d "rules") as [rules|] eqn:Hrules.
  - cbn [py_subscript bind]. rewrite Hrules. cbn [bind].
    destruct (load_rules rules) as [rules'|] eqn:Hload; cbn [bind]; [|discriminate].
    intros [= <- <-]. split; [reflexivity|]. split.
    + intros k Hk. apply dict_get_set_other. congruence.
    + intros l [= ->]. cbn [load_rules] in Hload.
      destruct (load_rule_items l) as [l'|] eqn:Hitems; cbn [bind] in Hload;
        [|discriminate].
      injection Hload as <-. exists l'. split; [apply dict_get_set_same|].
      clear Hrules. revert l' Hitems.
      induction l as [|r l IH]; intros l'; cbn [load_rule_items].
      * intros [= <-]. constructor.
      * destruct (load_rule r) as [r'|] eqn:Hr; cbn [bind]; [|discriminate].
        destruct (load_rule_items l) as [l''|]; cbn [bind]; [|discriminate].
        intros [= <-]. constructor; [|now apply IH].
        intros k default. now apply load_rule_keeps_keys.
  - intros [= <- <-]. split; [reflexivity|]. split; [reflexivity|].
    intros rules [=].
Qed.

Lemma load_config_keeps_shape_witness :
  let rules := [PDict [("name", PStr "Dividends");
                       ("when", PDict [("postbox_type", PStr "B")]);
                       ("path", PStr "Income")]] in
  let d := [("templates", PDict [("standard", PStr "{event_title}.pdf")]);
            ("rules", PList rules)] in
  exists loaded table,
    _load_config (PDict d) = Ok (loaded, table)
    /\ table = PDict [("standard", PStr "{event_title}.pdf")].
Proof.
  intros rules d. eexists. eexists.
  assert (Hload : _load_config (PDict d) = Ok (_, _)) by reflexivity.
  split; [exact Hload|].
  exact (proj1 (load_config_keeps_shape _ _ _ Hload)).
Defined.

(** X18. A configuration without the key [rules] loads, and the sorter
    made from it finds no rule for any file: every existing file is
    refused with the no-match error. *)
Theorem no_rules_no_location (platform : Platform) (d : dict)
  (absolute_output_dir : string) :
  dict_get d "rules" = None ->
  exists self,
    FileSorter_init (PDict d) absolute_output_dir = Ok self
    /\ forall original_filepath metadata,
         os_path_exists original_filepath = true ->
         get_new_location self original_filepath metadata
         = Raise (ValueError
                    (no_match_message (os_path_basename original_filepath) metadata)).
Proof.
  intros Hrules. eexists. split.
  - unfold FileSorter_init, _load_config. cbn [py_get bind]. unfold dict_has.
    rewrite Hrules. cbn [bind fst snd]. reflexivity.
  - intros original_filepath metadata Hexists.
    unfold get_new_location. rewrite Hexists. cbv zeta. cbn [negb].
    unfold plan_location, _find_all_matching_rules, config_rules. cbn [config].
    rewrite Hrules. reflexivity.
Qed.

Lemma no_rules_no_location_witness :
  exists self,
    FileSorter_init (PDict [("templates", PDict [])]) "/out" = Ok self
    /\ @get_new_location sample_platform self "/inbox/scan.pdf" []
       = Raise (ValueError
                  "No matching rule found for file 'scan.pdf' with metadata: {}").
Proof.
  destruct (no_rules_no_location sample_platform [("templates", PDict [])] "/out" eq_refl)
    as [self [Hinit Hnone]].
  exists self. split; [exact Hinit|].
  exact (Hnone "/inbox/scan.pdf" [] eq_refl).
Defined.

(** The documented end-to-end example, from the parsed configuration. *)
Example dividends_from_configuration :
  let parsed :=
    PDict [("rules",
            PList [PDict [("name", PStr "Dividends");
                          ("when", PDict [("postbox_type", PList [PStr "A"; PStr "B"])]);
                          ("path", PStr "Income/{event_title}");
                          ("filename", PStr "{event_title}.pdf")]])] in
  (self <- FileSorter_init parsed "/out" ;;
   @get_new_location sample_platform self "/inbox/scan.pdf"
     [("postbox_type", PStr "B"); ("event_title", PStr "Apple")])
  = Ok ("/out/Income/Apple", "Apple.pdf", PStr "Dividends").
Proof. vm_compute. reflexivity. Qed.
